(** * snift-backend: the score aggregation engine

    A shallow embedding of [services/calculate.go],
    [models/certificate.go] and the handler of POST /scores, with the
    parts of the Go runtime they call, and the properties of the scoring
    rules proved on it.

    Conventions.
    - A Go [string] is a sequence of bytes: Stdlib's [string], whose
      characters are the 256 values of [ascii].
    - A Go [int] is written as [Z].  Every integer of the program is a
      sum of per-check scores (at most 10 each) over the headers of one
      response, the lines of one command output or the incidents of one
      feed, so it stays far inside the 64-bit range; where a property
      needs that range, it is a hypothesis.
    - A Go [float64] is a value of [Float64.float64]; its operations
      round the exact result to the nearest double, ties to even.
    - The outside world (HTTP, DNS through [dig], TLS, the clock
      formats, the Unicode tables) is a record [World] of oracles.
    - A call either returns, returns an [error], ends the process
      ([log.Fatal]) or panics: the type [outcome].  What the program
      prints is left out. *)

From Stdlib Require Import ZArith Lia Bool List String Ascii.
From Stdlib Require Import Floats.SpecFloat.
From Stdlib Require Import Sorting.Permutation.
From stdpp Require Import gmap strings.
Import ListNotations.

Local Open Scope string_scope.
Local Open Scope Z_scope.

(** ** Outcomes of a call *)

(** Go's [error] values are used for their text only. *)
Definition error := string.

Inductive outcome (A : Type) : Type :=
| Ok (a : A)            (* normal return *)
| Err (e : error)       (* return with a non-nil error *)
| Fatal (msg : string)  (* log.Fatal: the process exits *)
| Panic.                (* run-time panic *)

Arguments Ok {A} a.
Arguments Err {A} e.
Arguments Fatal {A} msg.
Arguments Panic {A}.

Definition bind {A B : Type} (x : outcome A) (k : A -> outcome B) : outcome B :=
  match x with
  | Ok a => k a
  | Err e => Err e
  | Fatal m => Fatal m
  | Panic => Panic
  end.

Notation "'let!' p := x 'in' k" := (bind x (fun p => k))
  (at level 10, p pattern, x at level 100, k at level 200).

(** ** Package [strings] of the Go library *)
Module Strings.

Definition len (s : string) : Z := Z.of_nat (String.length s).

(** [strings.Compare(a, b) == 0] *)
Definition Equal (a b : string) : bool := String.eqb a b.

Fixpoint HasPrefix (s prefix : string) {struct prefix} : bool :=
  match prefix with
  | EmptyString => true
  | String c p =>
      match s with
      | EmptyString => false
      | String d s' => Ascii.eqb d c && HasPrefix s' p
      end
  end.

Fixpoint drop (n : nat) (s : string) : string :=
  match n with
  | O => s
  | S k => match s with EmptyString => EmptyString | String _ s' => drop k s' end
  end.

Fixpoint take (n : nat) (s : string) : string :=
  match n with
  | O => EmptyString
  | S k => match s with EmptyString => EmptyString | String c s' => String c (take k s') end
  end.

(** The slice expression [s[lo:hi]]: a panic outside [0 <= lo <= hi <= len(s)]. *)
Definition slice (s : string) (lo hi : Z) : outcome string :=
  if (0 <=? lo) && (lo <=? hi) && (hi <=? len s)
  then Ok (take (Z.to_nat (hi - lo)) (drop (Z.to_nat lo) s))
  else Panic.

(** [len(s) >= len(suffix) && s[len(s)-len(suffix):] == suffix] *)
Definition HasSuffix (s suffix : string) : bool :=
  (String.length suffix <=? String.length s)%nat
  && String.eqb (drop (String.length s - String.length suffix) s) suffix.

Fixpoint Contains (s substr : string) : bool :=
  HasPrefix s substr ||
  match s with
  | EmptyString => false
  | String _ s' => Contains s' substr
  end.

(** [strings.Split(s, sep)] for a separator that is not empty (the program
    has one call, with the separator ["report="]): the pieces between the
    occurrences of [sep], found from the left and not overlapping.  [skip]
    counts the bytes of a matched separator still to be passed over. *)
Fixpoint Split_from (skip : nat) (s sep : string) : list string :=
  match s with
  | EmptyString => [EmptyString]
  | String c s' =>
      match skip with
      | S k => Split_from k s' sep
      | O =>
          if HasPrefix s sep
          then EmptyString :: Split_from (String.length sep - 1) s' sep
          else match Split_from 0 s' sep with
               | piece :: rest => String c piece :: rest
               | [] => [String c EmptyString]
               end
      end
  end.

Definition Split (s sep : string) : list string := Split_from 0 s sep.

(** [strings.Replace(s, old, new, -1)] for an [old] that is not empty (the
    program replaces ["domain.com"] and ["www."]). *)
Fixpoint Replace_from (skip : nat) (s old new : string) : string :=
  match s with
  | EmptyString => EmptyString
  | String c s' =>
      match skip with
      | S k => Replace_from k s' old new
      | O =>
          if HasPrefix s old
          then new +:+ Replace_from (String.length old - 1) s' old new
          else String c (Replace_from 0 s' old new)
      end
  end.

Definition Replace (s old new : string) : string := Replace_from 0 s old new.

Fixpoint Join (elems : list string) (sep : string) : string :=
  match elems with
  | [] => EmptyString
  | [e] => e
  | e :: rest => e +:+ sep +:+ Join rest sep
  end.

(** *** White space

    [strings.TrimSpace] removes the leading and trailing white space, as
    Unicode defines it, of a UTF-8 string.  The code points with the
    property White_Space are U+0009..U+000D, U+0020, U+0085, U+00A0,
    U+1680, U+2000..U+200A, U+2028, U+2029, U+202F, U+205F and U+3000;
    [space_width s] is the number of bytes of the white-space character
    [s] starts with, [0] when it starts with none. *)

Definition byte_of (c : ascii) : Z := Z.of_N (N_of_ascii c).

Definition space_width (s : list Z) : nat :=
  match s with
  | 9 :: _ | 10 :: _ | 11 :: _ | 12 :: _ | 13 :: _ | 32 :: _ => 1
  | 194 :: 133 :: _ | 194 :: 160 :: _ => 2
  | 225 :: 154 :: 128 :: _ => 3
  | 226 :: 128 :: b :: _ =>
      if ((128 <=? b) && (b <=? 138)) || (b =? 168) || (b =? 169) || (b =? 175)
      then 3 else 0
  | 226 :: 129 :: 159 :: _ => 3
  | 227 :: 128 :: 128 :: _ => 3
  | _ => 0
  end.

(** The same, read from the end: [r] is the string reversed. *)
Definition space_width_back (r : list Z) : nat :=
  match r with
  | 9 :: _ | 10 :: _ | 11 :: _ | 12 :: _ | 13 :: _ | 32 :: _ => 1
  | 133 :: 194 :: _ | 160 :: 194 :: _ => 2
  | 128 :: 154 :: 225 :: _ => 3
  | b :: 128 :: 226 :: _ =>
      if ((128 <=? b) && (b <=? 138)) || (b =? 168) || (b =? 169) || (b =? 175)
      then 3 else 0
  | 159 :: 129 :: 226 :: _ => 3
  | 128 :: 128 :: 227 :: _ => 3
  | _ => 0
  end.

Fixpoint trim_front (width : list Z -> nat) (skip : nat) (s : list ascii) : list ascii :=
  match s with
  | [] => []
  | c :: s' =>
      match skip with
      | S k => trim_front width k s'
      | O =>
          match width (map byte_of s) with
          | O => s
          | S k => trim_front width k s'
          end
      end
  end.

Definition TrimLeftSpace (s : string) : string :=
  string_of_list_ascii (trim_front space_width 0 (list_ascii_of_string s)).

Definition TrimRightSpace (s : string) : string :=
  string_of_list_ascii
    (rev (trim_front space_width_back 0 (rev (list_ascii_of_string s)))).

Definition TrimSpace (s : string) : string := TrimRightSpace (TrimLeftSpace s).

(** *** Letter case

    [strings.ToLower] and [strings.EqualFold] work on bytes while the
    input is ASCII and consult the Unicode tables from the first byte
    that is not; the table-driven parts are oracles of the [World]. *)

Definition is_ascii (c : ascii) : bool := byte_of c <? 128.

Definition is_upper (c : ascii) : bool := (65 <=? byte_of c) && (byte_of c <=? 90).

Definition lower_byte (c : ascii) : ascii :=
  if is_upper c then ascii_of_N (N_of_ascii c + 32) else c.

Fixpoint all_ascii (s : string) : bool :=
  match s with
  | EmptyString => true
  | String c s' => is_ascii c && all_ascii s'
  end.

Fixpoint map_bytes (f : ascii -> ascii) (s : string) : string :=
  match s with
  | EmptyString => EmptyString
  | String c s' => String (f c) (map_bytes f s')
  end.

Definition ToLower (Map_unicode_ToLower : string -> string) (s : string) : string :=
  if all_ascii s then map_bytes lower_byte s else Map_unicode_ToLower s.

Fixpoint EqualFold (EqualFold_unicode : string -> string -> bool) (s t : string) : bool :=
  match s, t with
  | EmptyString, EmptyString => true
  | String sr s', String tr t' =>
      if is_ascii sr && is_ascii tr
      then Ascii.eqb (lower_byte sr) (lower_byte tr) && EqualFold EqualFold_unicode s' t'
      else EqualFold_unicode s t
  | _, _ => false
  end.

End Strings.

(** ** Package [bufio]: a [Scanner] splitting at lines *)
Module Bufio.

Definition MaxScanTokenSize : Z := 64 * 1024.

Definition newline : ascii := ascii_of_N 10.
Definition carriage_return : ascii := ascii_of_N 13.

(** The segments of [s] between its newline bytes; the last one is what
    follows the last newline (empty when [s] ends in a newline). *)
Fixpoint segments (s : string) : list string :=
  match s with
  | EmptyString => [EmptyString]
  | String c s' =>
      if Ascii.eqb c newline then EmptyString :: segments s'
      else match segments s' with
           | seg :: rest => String c seg :: rest
           | [] => [String c EmptyString]
           end
  end.

Definition dropCR (data : string) : string :=
  let n := String.length data in
  match Strings.drop (n - 1) data with
  | String c EmptyString =>
      if Ascii.eqb c carriage_return then Strings.take (n - 1) data else data
  | _ => data
  end.

(** The tokens a [Scanner] with the split function [ScanLines] delivers:
    each line without its end-of-line marker, the text after the last
    newline when there is some; a line of [MaxScanTokenSize] bytes or more
    does not fit the buffer and ends the scan. *)
Fixpoint tokens (segs : list string) : list string :=
  match segs with
  | [] => []
  | seg :: rest =>
      if MaxScanTokenSize <=? Strings.len seg then []
      else match rest with
           | [] => if String.eqb seg EmptyString then [] else [dropCR seg]
           | _ :: _ => dropCR seg :: tokens rest
           end
  end.

Definition ScanLines (s : string) : list string := tokens (segments s).

End Bufio.

(** ** [float64]

    Every finite double is a whole multiple of 2^-1074: [FFin m] is the
    double of value [m * 2^-1074] (the two zeros are not told apart).  An
    operation computes the exact rational result [N / D] in that unit and
    rounds it to the nearest double, ties to the even significand. *)
Module Float64.

Inductive float64 : Type :=
| FNaN
| FInf (negative : bool)
| FFin (m : Z).

(** The integer nearest to [N / D], ties to even ([0 <= N], [0 < D]). *)
Definition nearest_even (N D : Z) : Z :=
  let q := N / D in
  let r2 := 2 * (N mod D) in
  if r2 <? D then q
  else if D <? r2 then q + 1
  else if Z.even q then q else q + 1.

(** The binary exponent of the last place of [N / D]: a significand has 53
    bits, so the quotient is rounded to a multiple of [2 ^ ulp_exp N D],
    which is [2 ^ (floor (log2 (N / D)) - 52)] and at least one unit. *)
Definition ulp_exp (N D : Z) : Z :=
  let k := Z.log2 N - Z.log2 D - 52 in
  if (0 <? k) && (D * 2 ^ (k + 52) <=? N) then k else Z.max 0 (k - 1).

Definition round_pos (N D : Z) : Z :=
  let s := ulp_exp N D in
  nearest_even N (D * 2 ^ s) * 2 ^ s.

(** Doubles are below [2^1024], which is [2^2098] units. *)
Definition overflow_threshold : Z := 2 ^ 2098.

(** The double nearest to [N / D] units. *)
Definition round (N D : Z) : float64 :=
  if D =? 0 then (if N =? 0 then FNaN else FInf (N <? 0))
  else
    let N' := if D <? 0 then - N else N in
    let D' := Z.abs D in
    let m := round_pos (Z.abs N') D' in
    if overflow_threshold <=? m then FInf (N' <? 0) else FFin (Z.sgn N' * m).

Definition one : Z := 2 ^ 1074.

(** The conversion [float64(i)] of an integer, and a decimal constant
    [n / d] of the program text. *)
Definition of_int (i : Z) : float64 := round (i * one) 1.
Definition literal (n d : Z) : float64 := round (n * one) d.

Definition is_neg (x : float64) : bool :=
  match x with
  | FNaN => false
  | FInf b => b
  | FFin m => m <? 0
  end.

Definition div (x y : float64) : float64 :=
  match x, y with
  | FFin a, FFin b => round (a * one) b
  | FFin _, FInf _ => FFin 0
  | FInf _, FFin _ => FInf (xorb (is_neg x) (is_neg y))
  | _, _ => FNaN
  end.

Definition mul (x y : float64) : float64 :=
  match x, y with
  | FFin a, FFin b => round (a * b) one
  | FFin a, FInf _ | FInf _, FFin a =>
      if a =? 0 then FNaN else FInf (xorb (is_neg x) (is_neg y))
  | FInf a, FInf b => FInf (xorb a b)
  | _, _ => FNaN
  end.

Definition add (x y : float64) : float64 :=
  match x, y with
  | FFin a, FFin b => round (a + b) 1
  | FFin _, FInf b | FInf b, FFin _ => FInf b
  | FInf a, FInf b => if Bool.eqb a b then FInf a else FNaN
  | _, _ => FNaN
  end.

(** [math.Ceil] *)
Definition Ceil (x : float64) : float64 :=
  match x with
  | FFin m => FFin (- ((- m) / one) * one)
  | _ => x
  end.

(** The comparisons [x <= y] and [x > y]; both are false on a NaN. *)
Definition leb (x y : float64) : bool :=
  match x, y with
  | FNaN, _ | _, FNaN => false
  | FInf true, _ => true
  | _, FInf false => true
  | FInf false, _ => false
  | _, FInf true => false
  | FFin a, FFin b => a <=? b
  end.

Definition gtb (x y : float64) : bool :=
  match x, y with
  | FNaN, _ | _, FNaN => false
  | FInf true, _ => false
  | _, FInf false => false
  | FInf false, _ => true
  | _, FInf true => true
  | FFin a, FFin b => b <? a
  end.

End Float64.

(** ** Package [time]: instants and durations *)
Module Time.

(** An instant is its distance in nanoseconds from the zero [Time]
    (January 1 of year 1, UTC); a [Duration] is a 64-bit count of
    nanoseconds. *)
Definition Time := Z.
Definition Duration := Z.

Definition zero : Time := 0.
Definition minDuration : Duration := - 2 ^ 63.
Definition maxDuration : Duration := 2 ^ 63 - 1.
Definition Hour : Duration := 60 * 60 * 1000000000.

(** [t.Sub(u)]: the difference, held at the ends of the range. *)
Definition Sub (t u : Time) : Duration :=
  let d := t - u in
  if d <? minDuration then minDuration
  else if maxDuration <? d then maxDuration
  else d.

(** [d.Hours()]:
    [hour := d / Hour; nsec := d % Hour;
     return float64(hour) + float64(nsec)/(60*60*1e9)] *)
Definition Hours (d : Duration) : Float64.float64 :=
  let hour := Z.quot d Hour in
  let nsec := Z.rem d Hour in
  Float64.add (Float64.of_int hour)
    (Float64.div (Float64.of_int nsec) (Float64.of_int (60 * 60 * 1000000000))).

End Time.

(** ** Data of the libraries and of package [models] *)

(** [url.URL], the two fields the program reads. *)
Record URL := { Scheme : string; Host : string }.

(** [tls.ConnectionState], the field the program reads. *)
Record ConnectionState := { Version : Z }.

(** [http.Response], the fields the program reads. *)
Record Response := {
  Header : gmap string (list string);
  Proto : string;
  TLS : option ConnectionState
}.

(** [x509.Certificate], the fields the program reads. *)
Record Certificate := {
  Issuer_CommonName : string;
  Subject_CommonName : string;
  DNSNames : list string;
  NotBefore : Time.Time;
  NotAfter : Time.Time
}.

(** The connection [tls.DialWithDialer] returns. *)
Record Conn := {
  RemoteAddr : string;
  PeerCertificates : list Certificate
}.

(** Modelled from the spec: [models.ServerDetail], whose declaration is not
    among the sources; the informational metadata of a web server. *)
Record ServerDetail := { Description : string }.

(** [models.WebServer], as [getServerInformation] uses it: an entry of
    [resources/web_servers.json]. *)
Record WebServer := {
  Prefix : string;
  WebServer_ServerDetail : option ServerDetail
}.

(** [models.Incident], as [GetPreviousVulnerabilitiesScore] uses it. *)
Record Incident := {
  Fixed : bool;
  ReportedDate : string;
  FixedDate : string
}.

(** ** The outside world

    What the program asks from its environment, one oracle per call.
    [utils.IsValidURL] and the catalogue [resources/web_servers.json]
    belong to the repository but are not among the sources: they are
    taken as given. *)
Record World := {
  (* strings.Map(unicode.ToLower, s) *)
  Map_unicode_ToLower : string -> string;
  (* the table-driven part of strings.EqualFold *)
  EqualFold_unicode : string -> string -> bool;
  (* url.Parse *)
  url_Parse : string -> error + URL;
  (* net.SplitHostPort *)
  net_SplitHostPort : string -> error + (string * string);
  (* utils.IsValidURL *)
  IsValidURL : string -> option error;
  (* http.Head *)
  http_Head : string -> error + Response;
  (* the parsed content of resources/web_servers.json *)
  web_servers : list WebServer;
  (* exec.Command("bash", "-c", command).Output() *)
  bash_Output : string -> string * option error;
  (* tls.DialWithDialer(d, "tcp", addr, config) *)
  tls_Dial : string -> error + Conn;
  (* t.In(time.UTC).String() *)
  UTC_String : Time.Time -> string;
  (* http.Get followed by ioutil.ReadAll of the body *)
  http_Get : string -> error + (error + string);
  (* xml.Unmarshal into models.Incidents *)
  xml_Unmarshal : string -> error + list Incident;
  (* time.Parse(layout, value) *)
  time_Parse : string -> string -> error + Time.Time
}.

(** ** Package [models]: [certificate.go] *)
Module models.
Import Strings.

Section Certificate.
Variable w : World.

Definition defaultPort : string := "443".

(** [SplitHostPort] returns a host and a port separately. *)
Definition SplitHostPort (hostport : string) : string * string * option error :=
  if negb (Contains hostport ":") then (hostport, defaultPort, None)
  else
    match net_SplitHostPort w hostport with
    | inl err => ("", "", Some err)
    | inr (host, port) =>
        let port := if String.eqb port "" then defaultPort else port in
        (host, port, None)
    end.

(** [Cert] holds the certificate details. *)
Record Cert := {
  DomainName : string;
  IP : string;
  Issuer : string;
  CommonName : string;
  SANs : list string;
  Cert_NotBefore : string;
  Cert_NotAfter : string;
  Error : string;
  certChain : list Certificate
}.

(** [Cert{DomainName: host, Error: text}]: the other fields keep their zero
    values. *)
Definition Cert_error (host text : string) : Cert :=
  {| DomainName := host; IP := ""; Issuer := ""; CommonName := ""; SANs := [];
     Cert_NotBefore := ""; Cert_NotAfter := ""; Error := text; certChain := [] |}.

Definition empty_Certificate : Certificate :=
  {| Issuer_CommonName := ""; Subject_CommonName := ""; DNSNames := [];
     NotBefore := Time.zero; NotAfter := Time.zero |}.

Definition serverCert (host port : string) : list Certificate * string * option error :=
  match tls_Dial w (host +:+ ":" +:+ port) with
  | inl err => ([empty_Certificate], "", Some err)
  | inr conn =>
      let ip := match net_SplitHostPort w (RemoteAddr conn) with
                | inl _ => ""
                | inr (ip, _) => ip
                end in
      (PeerCertificates conn, ip, None)
  end.

(** The part of [GetCertificate] after the host and the port are known. *)
Definition certificate_of (host port : string) : outcome Cert :=
  let '(certChain, ip, err) := serverCert host port in
  match err with
  | Some err => Ok (Cert_error host err)
  | None =>
      match certChain with
      | [] => Panic  (* certChain[0] *)
      | cert :: _ =>
          Ok {| DomainName := host;
                IP := ip;
                Issuer := Issuer_CommonName cert;
                CommonName := Subject_CommonName cert;
                SANs := DNSNames cert;
                Cert_NotBefore := UTC_String w (NotBefore cert);
                Cert_NotAfter := UTC_String w (NotAfter cert);
                Error := "";
                certChain := certChain |}
      end
  end.

(** [GetCertificate] returns the certificate associated with a host-port. *)
Definition GetCertificate (hostport : string) : outcome Cert :=
  let '(host, port, err) := SplitHostPort hostport in
  match err with
  | Some err => Ok (Cert_error host err)
  | None => certificate_of host port
  end.

(** Modelled from the spec: the three-argument [GetCertificate(host, port,
    protocol)] that [CalculateOverallScore] calls, which is not among the
    sources.  It dials the host and port it is given; a dial or handshake
    failure produces a summary carrying only the domain and the error text,
    reported as part of the response and not raised as a failure, so the
    [error] it returns is [nil]. *)
Definition GetCertificate_of (host port protocol : string) : outcome (Cert * option error) :=
  let! cert := certificate_of host port in
  Ok (cert, None).

(** Modelled from the spec: [models.Scores] and [models.GetScores], which
    are not among the sources; the normalized score of a URL with the
    messages that explain it. *)
Record Scores := {
  Scores_URL : string;
  Score : Float64.float64;
  Messages : list string
}.

Definition GetScores (url : string) (totalScore : Float64.float64)
    (messages : list string) : Scores :=
  {| Scores_URL := url; Score := totalScore; Messages := messages |}.

(** Modelled from the spec: [models.ScoreResponse] and
    [models.GetScoresResponse], which are not among the sources; the score
    with the certificate summary, the incident list and the server detail. *)
Record ScoreResponse := {
  Response_Scores : Scores;
  Response_Certificate : Cert;
  Response_Incidents : option (list Incident);
  Response_ServerDetail : option ServerDetail
}.

Definition GetScoresResponse (scores : Scores) (certificates : Cert)
    (incidents : option (list Incident)) (serverDetail : option ServerDetail)
    : ScoreResponse :=
  {| Response_Scores := scores; Response_Certificate := certificates;
     Response_Incidents := incidents; Response_ServerDetail := serverDetail |}.

End Certificate.
End models.

(** ** Package [services]: [calculate.go] *)
Module services.
Import Strings.
Import models.

Definition XSSHeader : string := "X-Xss-Protection".
Definition XFrameHeader : string := "X-Frame-Options".
Definition HSTSHeader : string := "Strict-Transport-Security".
Definition CSPHeader : string := "Content-Security-Policy".
Definition PKPHeader : string := "Public-Key-Pins".
Definition RPHeader : string := "Referrer-Policy".
Definition XContentTypeHeader : string := "X-Content-Type-Options".
Definition Server : string := "Server".

Definition TXTQuery : string :=
  "dig @8.8.8.8 +ignore +short +bufsize=1024 domain.com txt".
Definition DMARCQuery : string := "dig +short TXT _dmarc.domain.com".
Definition OpenBugBountyURL : string :=
  "https://www.openbugbounty.org/api/1/search/?domain=".

(** The maximum incident response time, taken as 30 days: 720 hours. *)
Definition MaxIncidentResponseTime : Z := 720.

Definition XContentTypeHeaderValue : string := "nosniff".

(** [tls.VersionTLS10], [tls.VersionTLS11], [tls.VersionTLS12] *)
Definition VersionTLS10 : Z := 769.
Definition VersionTLS11 : Z := 770.
Definition VersionTLS12 : Z := 771.

Definition message_http : string :=
  "Website is unencrypted and hence subjective to Man-in-the-Middle attacks(MITM) and Eavesdropping Attacks.".
Definition message_https : string :=
  "From the protocol level, Website is secure.".
Definition message_unknown : string := "Protocol Not Found".

(** [CalculateProtocolScore] returns a score based on whether the protocol
    is http/https. *)
Definition CalculateProtocolScore (protocol : string) : Z * string :=
  let score := -1 in
  if Equal protocol "http" then (0, message_http)
  else if Equal protocol "https" then (5, message_https)
  else (score, message_unknown).

Definition getDefaultPort (protocol : string) : string :=
  let port := "80" in
  if String.eqb protocol "https" then "443" else port.

(** [GetXSSScore] returns the XSS score and the report URL. *)
Definition GetXSSScore (XSSValue : string) : Z * string :=
  let XSSValue := TrimSpace XSSValue in
  let score :=
    if Equal XSSValue "0" then 0
    else if HasPrefix XSSValue "1" then 5
    else 0 in
  let XSSValueReport := Split XSSValue "report=" in
  let XSSReportURL :=
    match XSSValueReport with
    | [_; url] => url
    | _ => ""
    end in
  (score, XSSReportURL).

Section Scoring.
Variable w : World.

(** [GetXFrameScore]: the X-Frame-Options score. *)
Definition GetXFrameScore (XFrameValue : string) : Z :=
  let XFrameValue := TrimSpace (ToLower (Map_unicode_ToLower w) XFrameValue) in
  if Equal XFrameValue "deny" || Equal XFrameValue "sameorigin" then 5
  else if HasPrefix XFrameValue "allow-from" then 4
  else 0.

(** [GetHSTSScore]: the Strict-Transport-Security score. *)
Definition GetHSTSScore (HSTS : string) : Z :=
  if HasPrefix HSTS "max-age" then
    if Contains HSTS "includeSubDomains" || Contains HSTS "preload" then 5 else 4
  else 0.

(** [GetReferrerPolicyScore]: the Referrer-Policy score. *)
Definition GetReferrerPolicyScore (ReferrerPolicy : string) : Z :=
  let ReferrerPolicy := TrimSpace (ToLower (Map_unicode_ToLower w) ReferrerPolicy) in
  if Equal ReferrerPolicy "no-referrer" then 5
  else if Equal ReferrerPolicy "no-referrer-when-downgrade"
          || Equal ReferrerPolicy "origin"
          || Equal ReferrerPolicy "origin-when-cross-origin"
          || Equal ReferrerPolicy "same-origin"
          || Equal ReferrerPolicy "strict-origin"
          || Equal ReferrerPolicy "strict-origin-when-cross-origin" then 4
  else if Equal ReferrerPolicy "unsafe-url" then 2
  else 0.

(** [GetXContentTypeScore]: the X-Content-Type-Options score. *)
Definition GetXContentTypeScore (XContentType : string) : Z :=
  if EqualFold (EqualFold_unicode w) XContentType XContentTypeHeaderValue then 5 else 0.

(** [GetHTTPVersionScore]: the score of the HTTP version. *)
Definition GetHTTPVersionScore (Proto : string) : Z :=
  if EqualFold (EqualFold_unicode w) Proto "HTTP/2.0" then 5
  else if EqualFold (EqualFold_unicode w) Proto "HTTP/1.1" then 2
  else 0.

(** [GetTLSVersionScore]: the score of the TLS version. *)
Definition GetTLSVersionScore (Version : Z) : Z :=
  if Version =? VersionTLS12 then 5
  else if Version =? VersionTLS11 then 3
  else if Version =? VersionTLS10 then 1
  else 0.

(** [getServerInformation]: the detail of the first catalogue entry whose
    prefix the [Server] header starts with. *)
Fixpoint first_match (server : string) (values : list WebServer) : option ServerDetail :=
  match values with
  | [] => None
  | serverValue :: rest =>
      if HasPrefix server (Prefix serverValue)
      then WebServer_ServerDetail serverValue
      else first_match server rest
  end.

Definition getServerInformation (server : string) : option ServerDetail :=
  first_match server (web_servers w).

(** The header checks of [GetResponseHeaderScore], each with the value
    [score] starts from when its header is absent. *)
Definition XSS_check (responseHeaderMap : gmap string string) : Z * string :=
  let score := 0 in
  match responseHeaderMap !! XSSHeader with
  | Some val => GetXSSScore val
  | None => (score, "")
  end.

Definition XFrame_check (responseHeaderMap : gmap string string) : Z :=
  let score := 1 in
  match responseHeaderMap !! XFrameHeader with
  | Some val => GetXFrameScore val
  | None => score
  end.

Definition HSTS_check (responseHeaderMap : gmap string string) : Z :=
  let score := 2 in
  match responseHeaderMap !! HSTSHeader with
  | Some val => GetHSTSScore val
  | None => score
  end.

Definition CSP_check (responseHeaderMap : gmap string string) : Z :=
  let score := 3 in
  match responseHeaderMap !! CSPHeader with
  | Some _ => 5
  | None => score
  end.

Definition PKP_check (responseHeaderMap : gmap string string) : Z :=
  let score := 3 in
  match responseHeaderMap !! PKPHeader with
  | Some _ => 5
  | None => score
  end.

Definition RP_check (responseHeaderMap : gmap string string) : Z :=
  let score := 2 in
  match responseHeaderMap !! RPHeader with
  | Some val => GetReferrerPolicyScore val
  | None => score
  end.

Definition XContentType_check (responseHeaderMap : gmap string string) : Z :=
  let score := 0 in
  match responseHeaderMap !! XContentTypeHeader with
  | Some val => GetXContentTypeScore val
  | None => score
  end.

(** The results of [GetResponseHeaderScore] next to its error. *)
Record HeaderScore := {
  totalScore : Z;
  XSSReportURL : string;
  maxScore : Z;
  serverInfo : option ServerDetail
}.

(** [GetResponseHeaderScore] from the response of the HEAD request on. *)
Definition score_response (response : Response) : HeaderScore :=
  let responseHeaderMap : gmap string string :=
    (fun v => Join v ",") <$> Header response in
  let totalScore := 0 in
  let maxScore := 0 in
  let '(score, XSSReportURL) := XSS_check responseHeaderMap in
  let maxScore := maxScore + 5 in
  let totalScore := totalScore + score in
  let score := XFrame_check responseHeaderMap in
  let maxScore := maxScore + 5 in
  let totalScore := totalScore + score in
  let score := HSTS_check responseHeaderMap in
  let maxScore := maxScore + 5 in
  let totalScore := totalScore + score in
  let score := CSP_check responseHeaderMap in
  let maxScore := maxScore + 5 in
  let totalScore := totalScore + score in
  let score := PKP_check responseHeaderMap in
  let maxScore := maxScore + 5 in
  let totalScore := totalScore + score in
  let score := RP_check responseHeaderMap in
  let maxScore := maxScore + 5 in
  let totalScore := totalScore + score in
  let maxScore := maxScore + 5 in
  let score := XContentType_check responseHeaderMap in
  let totalScore := totalScore + score in
  let maxScore := maxScore + 5 in
  let serverInfo :=
    match responseHeaderMap !! Server with
    | Some val => getServerInformation val
    | None => None
    end in
  let totalScore := totalScore + GetHTTPVersionScore (Proto response) in
  let maxScore := maxScore + 5 in
  let totalScore :=
    match TLS response with
    | Some state => totalScore + GetTLSVersionScore (Version state)
    | None => totalScore
    end in
  {| totalScore := totalScore; XSSReportURL := XSSReportURL;
     maxScore := maxScore; serverInfo := serverInfo |}.

(** [GetResponseHeaderScore] returns the response header score for the
    HTTP request. *)
Definition GetResponseHeaderScore (url : string) : outcome HeaderScore :=
  match IsValidURL w url with
  | Some err => Err err
  | None =>
      match http_Head w url with
      | inl err => Err err
      | inr response => Ok (score_response response)
      end
  end.

(** The loop of [GetSPFScore] over the lines of the command output. *)
Fixpoint scan_records (lines : list string) (totalScore spfRecordCount : Z)
    : outcome (Z * Z) :=
  match lines with
  | [] => Ok (totalScore, spfRecordCount)
  | txtRecord :: rest =>
      (* removing surrounding quotes and trimming spaces *)
      let! inner := slice txtRecord 1 (len txtRecord - 1) in
      let txtRecord := TrimSpace inner in
      if HasSuffix txtRecord "-all" then
        scan_records rest (totalScore + 5) (spfRecordCount + 1)
      else if HasSuffix txtRecord "~all" then
        scan_records rest (totalScore + 3) (spfRecordCount + 1)
      else if HasSuffix txtRecord "?all" then
        scan_records rest (totalScore + 2) (spfRecordCount + 1)
      else if HasSuffix txtRecord "+all" then
        scan_records rest totalScore (spfRecordCount + 1)
      else scan_records rest totalScore spfRecordCount
  end.

(** [GetSPFScore] returns the Sender Policy Framework score of the domain;
    the error of the command is printed and not otherwise used. *)
Definition GetSPFScore (domain : string) : outcome (Z * Z) :=
  let command := Replace TXTQuery "domain.com" domain in
  let '(out, err) := bash_Output w command in
  let txtRecords := out in
  let! (totalScore, spfRecordCount) := scan_records (Bufio.ScanLines txtRecords) 0 0 in
  let maxScore := spfRecordCount * 5 in
  Ok (totalScore, maxScore).

(** [GetDMARCScore] returns the DMARC score of the domain. *)
Definition GetDMARCScore (domain : string) : outcome Z :=
  let command := Replace DMARCQuery "domain.com" domain in
  let '(out, err) := bash_Output w command in
  let dmarcRecord := out in
  let score := 0 in
  match err with
  | Some err =>
      Fatal ("Unexpected Error Occured while extracting DMARC Records" +:+ err)
  | None =>
      if 2 <? len dmarcRecord then
        let! inner := slice dmarcRecord 1 (len dmarcRecord - 1) in
        let dmarcRecord := TrimSpace inner in
        if HasPrefix dmarcRecord "v=DMARC" then Ok 5 else Ok score
      else Ok score
  end.

(** [GetMailServerConfigurationScore] returns the mail server configuration
    score of a domain. *)
Definition GetMailServerConfigurationScore (host : string) : outcome (Z * Z) :=
  let maximumScore := 0 in
  let totalScore := 0 in
  let host := if HasPrefix host "www." then Replace host "www." "" else host in
  let! (spfScore, maxScore) := GetSPFScore host in
  let maximumScore := maximumScore + maxScore in
  let totalScore := totalScore + spfScore in
  let! dmarcScore := GetDMARCScore host in
  let totalScore := totalScore + dmarcScore in
  let maximumScore := maximumScore + 5 in
  Ok (totalScore, maximumScore).

(** The loop of [GetPreviousVulnerabilitiesScore] over the incidents; a
    date that does not parse is the zero [Time]. *)
Definition parse_date (value : string) : Time.Time :=
  match time_Parse w "Mon, 02 Jan 2006 15:04:05 -0700" value with
  | inl _ => Time.zero
  | inr t => t
  end.

Definition incident_score (incident : Incident) : Z :=
  if Fixed incident then
    let ReportedDate := parse_date (ReportedDate incident) in
    let FixedDate := parse_date (FixedDate incident) in
    let diff := Time.Sub FixedDate ReportedDate in
    if Float64.gtb (Time.Hours diff) (Float64.of_int MaxIncidentResponseTime)
    then 5 else 10
  else 0.

Fixpoint score_incidents (IncidentList : list Incident) (totalScore : Z) : Z :=
  match IncidentList with
  | [] => totalScore
  | incident :: rest => score_incidents rest (totalScore + incident_score incident)
  end.

(** [GetPreviousVulnerabilitiesScore] gets the score for previous
    vulnerabilities taken from openbugbounty.org. *)
Definition GetPreviousVulnerabilitiesScore (host : string)
    : outcome (Z * Z * list Incident) :=
  let host := if HasPrefix host "www." then Replace host "www." "" else host in
  match http_Get w (OpenBugBountyURL +:+ host) with
  | inl err => Fatal ("Error Occured while sending Request  " +:+ err)
  | inr (inl err) => Fatal ("Error Occured while reading HTTP Response  " +:+ err)
  | inr (inr body) =>
      match xml_Unmarshal w body with
      | inl err => Fatal ("Error Occured while Unmarshalling XML Response " +:+ err)
      | inr IncidentList =>
          let maxScore := Z.of_nat (length IncidentList) * 10 in
          let totalScore := score_incidents IncidentList 0 in
          Ok (totalScore, maxScore, IncidentList)
      end
  end.

(** The local variables of [CalculateOverallScore] once the normalized
    score is computed; [normalized] is the variable [totalScore]. *)
Record Totals := {
  protocol : string;
  host : string;
  port : string;
  messages : list string;
  score : Z;
  maximumScore : Z;
  normalized : Float64.float64;
  ServerDetail_of : option ServerDetail
}.

(** [math.Ceil((float64(float64(score)/float64(maximumScore)))*100) / 100] *)
Definition normalize (score maximumScore : Z) : Float64.float64 :=
  Float64.div
    (Float64.Ceil
       (Float64.mul
          (Float64.div (Float64.of_int score) (Float64.of_int maximumScore))
          (Float64.of_int 100)))
    (Float64.of_int 100).

(** [CalculateOverallScore] up to the normalized score. *)
Definition overall_totals (scoresURL : string) : outcome Totals :=
  let messages : list string := [] in
  let score := 0 in
  match url_Parse w scoresURL with
  | inl err => Err err
  | inr domain =>
      let protocol := Scheme domain in
      let '(host, port) :=
        if Contains (Host domain) ":" then
          match net_SplitHostPort w (Host domain) with
          | inl _ => ("", "")
          | inr hp => hp
          end
        else (Host domain, "") in
      let port := if String.eqb port "" then getDefaultPort protocol else port in
      let '(protocolScore, protocolMessage) := CalculateProtocolScore protocol in
      let messages := (messages ++ [protocolMessage])%list in
      let score := score + protocolScore in
      let maximumScore := 5 in
      let! header := GetResponseHeaderScore scoresURL in
      let maximumScore := maximumScore + maxScore header in
      let score := score + totalScore header in
      let! (mailServerScore, maxScore) := GetMailServerConfigurationScore host in
      let score := score + mailServerScore in
      let maximumScore := maximumScore + maxScore in
      let totalScore := normalize score maximumScore in
      Ok {| protocol := protocol; host := host; port := port;
            messages := messages; score := score;
            maximumScore := maximumScore; normalized := totalScore;
            ServerDetail_of := serverInfo header |}
  end.

(** [CalculateOverallScore] returns the overall score for the incoming
    request. *)
Definition CalculateOverallScore (scoresURL : string) : outcome ScoreResponse :=
  let! t := overall_totals scoresURL in
  let! (certificates, certError) := GetCertificate_of w (host t) (port t) (protocol t) in
  match certError with
  | Some certError => Err certError
  | None =>
      let scores := GetScores scoresURL (normalized t) (messages t) in
      Ok (GetScoresResponse scores certificates None (ServerDetail_of t))
  end.

End Scoring.

End services.

(** ** Package [controllers] *)
Module controllers.
Import Strings models services.

(** What [GetScore] asks of its request: the answer of
    [utils.ValidateToken(r)], and the [URL] field that
    [json.NewDecoder(r.Body).Decode(&scoresRequest)] leaves, or its
    error. *)
Record Request := {
  ValidateToken : bool;
  Decode : error + string
}.

(** The reply [GetScore] writes: one of the calls [utils.Unauthorized],
    [utils.BadRequest] and [utils.InternalServerError] with its message, or
    the status 200 with the response of the scorer. *)
Inductive Reply : Type :=
| Unauthorized (message : string)
| BadRequest (message : string)
| InternalServerError (message : string)
| StatusOK (response : ScoreResponse).

(** [GetScore]: the POST /scores handler. *)
Definition GetScore (w : World) (r : Request) : outcome Reply :=
  if negb (ValidateToken r) then Ok (Unauthorized "Invalid Token")
  else
    match Decode r with
    | inl _ => Ok (BadRequest "Unexpected Error Occured")
    | inr URL =>
        match IsValidURL w URL with
        | Some _ => Ok (BadRequest "Invalid URL")
        | None =>
            match CalculateOverallScore w URL with
            | Err scoresError =>
                if Contains scoresError "no such host"
                then Ok (BadRequest "Invalid Domain")
                else Ok (InternalServerError "Unexpected Error Occured")
            | Ok response => Ok (StatusOK response)
            | Fatal message => Fatal message
            | Panic => Panic
            end
        end
    end.

End controllers.

(** ** Worlds to run the program in *)
Module examples.
Import Strings models services.

(** A world with one URL, one HEAD response, one answer of [dig] to each
    of the two queries and one answer to the TLS dial; its inputs are
    ASCII, so that the Unicode tables are never consulted. *)
Definition world (domain : URL) (response : error + Response)
    (txt dmarc : string * option error) (dial : error + Conn)
    (dates : string -> error + Time.Time) (feed : error + list Incident)
    : World :=
  {| Map_unicode_ToLower := fun s => s;
     EqualFold_unicode := fun _ _ => false;
     url_Parse := fun _ => inr domain;
     net_SplitHostPort := fun _ => inl "missing port in address";
     IsValidURL := fun _ => None;
     http_Head := fun _ => response;
     web_servers := [];
     bash_Output := fun command =>
       if HasPrefix command "dig @8.8.8.8" then txt else dmarc;
     tls_Dial := fun _ => dial;
     UTC_String := fun _ => "";
     http_Get := fun _ => inr (inr "");
     xml_Unmarshal := fun _ => feed;
     time_Parse := fun _ value => dates value |}.

Definition no_dates (value : string) : error + Time.Time := inl "cannot parse".

(** The response of the scenario: two headers, HTTP/2.0 over TLS 1.2. *)
Definition scenario_response : Response :=
  {| Header := {[ XFrameHeader := ["DENY"];
                  HSTSHeader := ["max-age=31536000; includeSubDomains"] ]};
     Proto := "HTTP/2.0";
     TLS := Some {| Version := VersionTLS12 |} |}.

Definition scenario_url : string := "https://example.com".

Definition scenario_domain : URL := {| Scheme := "https"; Host := "example.com" |}.

(** The scenario: neither SPF nor DMARC records, the dial refused. *)
Definition scenario : World :=
  world scenario_domain (inr scenario_response) ("", None) ("", None)
    (inl "connection refused") no_dates (inr []).

(** The local variables of [CalculateOverallScore] in the scenario. *)
Definition scenario_result : Totals :=
  {| protocol := "https"; host := "example.com"; port := "443";
     messages := ["From the protocol level, Website is secure."];
     score := 33; maximumScore := 55; normalized := normalize 33 55;
     ServerDetail_of := None |}.

(** The scenario with a [dig] that fails on the DMARC query. *)
Definition dmarc_down : World :=
  world scenario_domain (inr scenario_response) ("", None)
    ("", Some "exit status 9") (inl "connection refused") no_dates (inr []).

(** The scenario with a [dig] that fails on the TXT query and prints
    nothing. *)
Definition spf_down : World :=
  world scenario_domain (inr scenario_response) ("", Some "exit status 9")
    ("", None) (inl "connection refused") no_dates (inr []).

(** A line of [dig +short]: the record between double quotes. *)
Definition quote : ascii := ascii_of_N 34.

Definition quoted (record : string) : string :=
  String quote (record +:+ String quote EmptyString).

Definition spf_lines : list string :=
  [quoted "v=spf1 include:_spf.example.com ~all";
   quoted "site-verification=4f2c";
   quoted "v=spf1 mx -all "].

(** The scenario with three TXT records, two of them SPF records. *)
Definition spf_world : World :=
  world scenario_domain (inr scenario_response)
    (Join spf_lines (String Bufio.newline EmptyString)
       +:+ String Bufio.newline EmptyString, None)
    ("", None) (inl "connection refused") no_dates (inr []).

(** Three incidents: one fixed after 720 hours to the second, one not
    fixed, one fixed after 721 hours. *)
Definition new_year_2024 : Time.Time := 738885 * 24 * Time.Hour.

Definition feed_dates (value : string) : error + Time.Time :=
  if String.eqb value "Mon, 01 Jan 2024 00:00:00 +0000" then inr new_year_2024
  else if String.eqb value "Wed, 31 Jan 2024 00:00:00 +0000"
       then inr (new_year_2024 + 720 * Time.Hour)
  else if String.eqb value "Wed, 31 Jan 2024 01:00:00 +0000"
       then inr (new_year_2024 + 721 * Time.Hour)
  else inl "cannot parse".

Definition fixed_at_threshold : Incident :=
  {| Fixed := true;
     ReportedDate := "Mon, 01 Jan 2024 00:00:00 +0000";
     FixedDate := "Wed, 31 Jan 2024 00:00:00 +0000" |}.

Definition not_fixed : Incident :=
  {| Fixed := false;
     ReportedDate := "Mon, 01 Jan 2024 00:00:00 +0000";
     FixedDate := "" |}.

Definition fixed_late : Incident :=
  {| Fixed := true;
     ReportedDate := "Mon, 01 Jan 2024 00:00:00 +0000";
     FixedDate := "Wed, 31 Jan 2024 01:00:00 +0000" |}.

Definition feed_incidents : list Incident :=
  [fixed_at_threshold; not_fixed; fixed_late].

Definition feed_world : World :=
  world scenario_domain (inr scenario_response) ("", None) ("", None)
    (inl "connection refused") feed_dates (inr feed_incidents).

Definition threshold_world : World :=
  world scenario_domain (inr scenario_response) ("", None) ("", None)
    (inl "connection refused") feed_dates (inr [fixed_at_threshold]).

(** A world with another incident feed. *)
Definition with_feed (w : World) (get : string -> error + (error + string))
    (unmarshal : string -> error + list Incident) : World :=
  {| Map_unicode_ToLower := Map_unicode_ToLower w;
     EqualFold_unicode := EqualFold_unicode w;
     url_Parse := url_Parse w;
     net_SplitHostPort := net_SplitHostPort w;
     IsValidURL := IsValidURL w;
     http_Head := http_Head w;
     web_servers := web_servers w;
     bash_Output := bash_Output w;
     tls_Dial := tls_Dial w;
     UTC_String := UTC_String w;
     http_Get := get;
     xml_Unmarshal := unmarshal;
     time_Parse := time_Parse w |}.

(** The scenario with a DMARC record. *)
Definition dmarc_world : World :=
  world scenario_domain (inr scenario_response) ("", None)
    (quoted "v=DMARC1; p=reject" +:+ String Bufio.newline EmptyString, None)
    (inl "connection refused") no_dates (inr []).

(** The scenario with a [dig] that prints a record and a blank line. *)
Definition blank_line_world : World :=
  world scenario_domain (inr scenario_response)
    (quoted "v=spf1 -all" +:+ String Bufio.newline (String Bufio.newline EmptyString),
     None)
    ("", None) (inl "connection refused") no_dates (inr []).

(** The scenario with the records of [spf_lines] in the opposite order. *)
Definition spf_world_reversed : World :=
  world scenario_domain (inr scenario_response)
    (Join (rev spf_lines) (String Bufio.newline EmptyString)
       +:+ String Bufio.newline EmptyString, None)
    ("", None) (inl "connection refused") no_dates (inr []).

(** The scenario with a host name that does not resolve. *)
Definition no_such_host : World :=
  world scenario_domain (inl "Head https://example.com: dial tcp: lookup example.com: no such host")
    ("", None) ("", None) (inl "connection refused") no_dates (inr []).

(** The scenario with a server that does not answer. *)
Definition no_answer : World :=
  world scenario_domain (inl "Head https://example.com: context deadline exceeded")
    ("", None) ("", None) (inl "connection refused") no_dates (inr []).

(** A fixed incident whose fixed date is not a date. *)
Definition fixed_without_date : Incident :=
  {| Fixed := true;
     ReportedDate := "Mon, 01 Jan 2024 00:00:00 +0000";
     FixedDate := "" |}.

(** A fixed incident whose reported date is not a date. *)
Definition reported_without_date : Incident :=
  {| Fixed := true;
     ReportedDate := "";
     FixedDate := "Wed, 31 Jan 2024 00:00:00 +0000" |}.

(** A catalogue of two servers; the first has no detail. *)
Definition catalogue : list WebServer :=
  [{| Prefix := "nginx"; WebServer_ServerDetail := None |};
   {| Prefix := "nginx/1"; WebServer_ServerDetail := Some {| Description := "nginx 1" |} |};
   {| Prefix := "Apache"; WebServer_ServerDetail := Some {| Description := "Apache" |} |}].

Definition catalogue_world : World :=
  {| Map_unicode_ToLower := Map_unicode_ToLower scenario;
     EqualFold_unicode := EqualFold_unicode scenario;
     url_Parse := url_Parse scenario;
     net_SplitHostPort := net_SplitHostPort scenario;
     IsValidURL := IsValidURL scenario;
     http_Head := http_Head scenario;
     web_servers := catalogue;
     bash_Output := bash_Output scenario;
     tls_Dial := tls_Dial scenario;
     UTC_String := UTC_String scenario;
     http_Get := http_Get scenario;
     xml_Unmarshal := xml_Unmarshal scenario;
     time_Parse := time_Parse scenario |}.


(** The scenario with an incident feed that cannot be fetched. *)
Definition feed_down : World :=
  with_feed scenario (fun _ => inl "dial tcp: i/o timeout") (fun _ => inr []).

(** A request with a valid token for the URL of the scenario. *)
Definition scenario_request : controllers.Request :=
  {| controllers.ValidateToken := true; controllers.Decode := inr scenario_url |}.

End examples.

(** ** Notions in which the properties are stated *)
Module notions.
Import Strings models services.

(** A magnitude [Y], in units of 2^-1074, that rounding at any last place
    [2^s] respects: [Y] is a multiple of [2^s] or lies below the numbers
    whose last place is [2^s].  The doubles are such magnitudes. *)
Definition on_grid (Y : Z) : Prop :=
  forall s, 0 <= s -> (exists y, Y = y * 2 ^ s) \/ Y < 2 ^ (52 + s).

(** The header map [GetResponseHeaderScore] builds from a response. *)
Definition header_map (response : Response) : gmap string string :=
  (fun v => Join v ",") <$> Header response.

(** The points of the TLS version, none without TLS. *)
Definition TLS_points (response : Response) : Z :=
  match TLS response with
  | Some state => GetTLSVersionScore (Version state)
  | None => 0
  end.

(** The same response, had it come over a plain connection. *)
Definition without_TLS (response : Response) : Response :=
  {| Header := Header response; Proto := Proto response; TLS := None |}.

(** The record [GetSPFScore] reads in a line: the line without its first
    and last byte (the quotes [dig] prints), trimmed. *)
Definition txt_record (line : string) : string :=
  TrimSpace (take (Z.to_nat (len line - 2)) (drop 1 line)).

(** The number of lines whose record ends in [suffix]. *)
Definition count_ending (suffix : string) (lines : list string) : Z :=
  Z.of_nat (length (List.filter (fun line => HasSuffix (txt_record line) suffix) lines)).

(** The remediation time of an incident: the fixed date minus the reported
    date. *)
Definition remediation_time (w : World) (incident : Incident) : Time.Duration :=
  Time.Sub (parse_date w (FixedDate incident)) (parse_date w (ReportedDate incident)).

(** The points of an incident: none while it is not fixed, 10 when it was
    fixed within 720 hours, 5 when it took longer. *)
Definition incident_points (w : World) (incident : Incident) : Z :=
  if Fixed incident then
    if remediation_time w incident <=? 720 * Time.Hour then 10 else 5
  else 0.

(** The points of a list of incidents. *)
Fixpoint total_points (w : World) (incidents : list Incident) : Z :=
  match incidents with
  | [] => 0
  | incident :: rest => incident_points w incident + total_points w rest
  end.

(** The host name the lookups are made for: the host without [www.]. *)
Definition bare_host (host0 : string) : string :=
  if HasPrefix host0 "www." then Replace host0 "www." "" else host0.

(** The number of places of [s] where [sep] occurs. *)
Fixpoint occurrences (s sep : string) : nat :=
  ((if HasPrefix s sep then 1 else 0)
   + match s with
     | EmptyString => 0
     | String _ s' => occurrences s' sep
     end)%nat.


(** A response without headers, over a plain connection. *)
Definition bare_response : Response :=
  {| Header := ∅; Proto := "HTTP/1.1"; TLS := None |}.

(** The response with the header [key] set to the values [values]. *)
Definition set_header (key : string) (values : list string) (response : Response)
    : Response :=
  {| Header := <[key := values]> (Header response);
     Proto := Proto response;
     TLS := TLS response |}.

(** The seven headers [GetResponseHeaderScore] scores. *)
Definition scored_headers : list string :=
  [XSSHeader; XFrameHeader; HSTSHeader; CSPHeader; PKPHeader; RPHeader;
   XContentTypeHeader].

(** The TLS version of a response, when it came over TLS. *)
Definition TLS_version (response : Response) : option Z :=
  match TLS response with
  | Some state => Some (Version state)
  | None => None
  end.

(** The byte [c] occurs in [s]. *)
Fixpoint has_byte (c : ascii) (s : string) : bool :=
  match s with
  | EmptyString => false
  | String d s' => Ascii.eqb d c || has_byte c s'
  end.

(** The two commands of the mail scorers for a domain. *)
Definition txt_command (domain : string) : string :=
  "dig @8.8.8.8 +ignore +short +bufsize=1024 " +:+ domain +:+ " txt".

Definition dmarc_command (domain : string) : string :=
  "dig +short TXT _dmarc." +:+ domain.

(** The lines [GetSPFScore] reads for a domain. *)
Definition txt_lines (w : World) (domain : string) : list string :=
  Bufio.ScanLines (fst (bash_Output w (Replace TXTQuery "domain.com" domain))).

(** The layout of the dates of the incident feed. *)
Definition feed_layout : string := "Mon, 02 Jan 2006 15:04:05 -0700".

End notions.

(** ** The model of [float64] against IEEE 754

    [SpecFloat], of the Standard Library, specifies the binary
    floating-point operations; on the samples below, which include the
    quotients of the scenario and integers that need rounding, the
    operations of [Float64] give the same doubles. *)
Module Float64_validation.
Import Float64.

Definition to_spec (x : float64) : spec_float :=
  match x with
  | FNaN => S754_nan
  | FInf negative => S754_infinity negative
  | FFin m =>
      if m =? 0 then S754_zero false
      else
        let a := Z.abs m in
        let s := Z.max 0 (Z.log2 a - 52) in
        S754_finite (m <? 0) (Z.to_pos (a / 2 ^ s)) (s - 1074)
  end.

Definition same (x y : spec_float) : bool :=
  match x, y with
  | S754_nan, S754_nan => true
  | S754_zero _, S754_zero _ => true
  | S754_infinity a, S754_infinity b => Bool.eqb a b
  | S754_finite s m e, S754_finite s' m' e' =>
      Bool.eqb s s' && Pos.eqb m m' && Z.eqb e e'
  | _, _ => false
  end.

Definition spec_of_int (i : Z) : spec_float := binary_normalize 53 1024 i 0 false.

Definition agree (ab : Z * Z) : bool :=
  let '(a, b) := ab in
  let x := of_int a in
  let y := of_int b in
  let sx := spec_of_int a in
  let sy := spec_of_int b in
  same (to_spec x) sx
  && same (to_spec y) sy
  && same (to_spec (div x y)) (SFdiv 53 1024 sx sy)
  && same (to_spec (mul (div x y) (of_int 100)))
          (SFmul 53 1024 (SFdiv 53 1024 sx sy) (spec_of_int 100))
  && same (to_spec (add x (div x y))) (SFadd 53 1024 sx (SFdiv 53 1024 sx sy)).

Definition samples : list (Z * Z) :=
  [(33, 55); (34, 50); (5, 55); (1, 3); (29, 50);
   (0, 5); (7, 0); (0, 0); (-7, 3); (1, 3600000000000);
   (9007199254740993, 3); (7, 9007199254740993);
   (4611686018427400249, 7); (9223372036854775807, 9223372036854775806)].

End Float64_validation.

(** ** Rounding to the nearest double *)
Module Float64_facts.
Import Float64.
Import services notions.

Lemma nearest_even_le N D K : 0 < D -> N <= K * D -> nearest_even N D <= K.
Proof.
  intros HD HN. unfold nearest_even.
  pose proof (Z.div_mod N D ltac:(lia)) as E.
  pose proof (Z.mod_pos_bound N D HD) as B.
  assert (N / D <= K) by nia.
  destruct (2 * (N mod D) <? D) eqn:C1; [lia|].
  apply Z.ltb_ge in C1.
  assert (N / D + 1 <= K) by nia.
  destruct (D <? 2 * (N mod D)); [lia|].
  destruct (Z.even (N / D)); lia.
Qed.

Lemma nearest_even_ge N D K : 0 < D -> K * D <= N -> K <= nearest_even N D.
Proof.
  intros HD HN. unfold nearest_even.
  pose proof (Z.div_mod N D ltac:(lia)) as E.
  pose proof (Z.mod_pos_bound N D HD) as B.
  assert (K <= N / D) by nia.
  destruct (2 * (N mod D) <? D); [lia|].
  destruct (D <? 2 * (N mod D)); [lia|].
  destruct (Z.even (N / D)); lia.
Qed.

Lemma ulp_exp_nonneg N D : 0 <= ulp_exp N D.
Proof.
  unfold ulp_exp.
  destruct ((0 <? Z.log2 N - Z.log2 D - 52) && _) eqn:C; [|lia].
  apply andb_true_iff in C as [C _]. apply Z.ltb_lt in C. lia.
Qed.

Lemma pow2_pos n : 0 < 2 ^ n \/ n < 0.
Proof. destruct (Z.le_gt_cases 0 n); [left; apply Z.pow_pos_nonneg; lia | right; lia]. Qed.

Lemma log2_bounds n : 0 < n -> 2 ^ Z.log2 n <= n < 2 ^ (Z.log2 n + 1).
Proof. intros H. pose proof (Z.log2_spec n H). replace (Z.log2 n + 1) with (Z.succ (Z.log2 n)) by lia. lia. Qed.

(** A last place above one unit is at most the quotient divided by
    [2^52]: the significand has its 53 bits. *)
Lemma ulp_exp_lower N D :
  0 < N -> 0 < D -> 0 < ulp_exp N D -> D * 2 ^ (52 + ulp_exp N D) <= N.
Proof.
  intros HN HD. unfold ulp_exp.
  set (k := Z.log2 N - Z.log2 D - 52).
  destruct ((0 <? k) && (D * 2 ^ (k + 52) <=? N)) eqn:C.
  - apply andb_true_iff in C as [_ C]. apply Z.leb_le in C. intros _.
    replace (52 + k) with (k + 52) by lia. exact C.
  - intros Hs. assert (Hk : 2 <= k) by lia.
    replace (Z.max 0 (k - 1)) with (k - 1) by lia.
    pose proof (log2_bounds N HN) as [LN _].
    pose proof (log2_bounds D HD) as [_ UD].
    pose proof (Z.log2_nonneg D) as LD0.
    replace (52 + (k - 1)) with (Z.log2 N - (Z.log2 D + 1)) by (unfold k; lia).
    assert (E : 2 ^ Z.log2 N = 2 ^ (Z.log2 N - (Z.log2 D + 1)) * 2 ^ (Z.log2 D + 1)).
    { rewrite <- Z.pow_add_r by (unfold k in Hk; lia). f_equal. lia. }
    assert (0 < 2 ^ (Z.log2 N - (Z.log2 D + 1))) by (apply Z.pow_pos_nonneg; unfold k in Hk; lia).
    assert (D * 2 ^ (Z.log2 N - (Z.log2 D + 1))
            <= 2 ^ (Z.log2 D + 1) * 2 ^ (Z.log2 N - (Z.log2 D + 1)))
      by (apply Z.mul_le_mono_nonneg_r; lia).
    rewrite (Z.mul_comm (2 ^ (Z.log2 D + 1))), <- E in H0. lia.
Qed.

Lemma ulp_exp_upper N D :
  0 < N -> 0 < D -> N < D * 2 ^ (53 + ulp_exp N D).
Proof.
  intros HN HD. unfold ulp_exp.
  set (k := Z.log2 N - Z.log2 D - 52).
  pose proof (log2_bounds N HN) as [_ UN].
  pose proof (log2_bounds D HD) as [LD _].
  pose proof (Z.log2_nonneg D) as LD0.
  pose proof (Z.log2_nonneg N) as LN0.
  destruct (0 <? k) eqn:K; simpl.
  - apply Z.ltb_lt in K.
    destruct (D * 2 ^ (k + 52) <=? N) eqn:C.
    + replace (53 + k) with (Z.log2 N + 1 - Z.log2 D) by (unfold k; lia).
      assert (E : 2 ^ (Z.log2 N + 1) = 2 ^ (Z.log2 N + 1 - Z.log2 D) * 2 ^ Z.log2 D).
      { rewrite <- Z.pow_add_r by (unfold k in K; lia). f_equal. lia. }
      assert (0 < 2 ^ (Z.log2 N + 1 - Z.log2 D)) by (apply Z.pow_pos_nonneg; unfold k in K; lia).
      assert (2 ^ (Z.log2 N + 1 - Z.log2 D) * 2 ^ Z.log2 D
              <= 2 ^ (Z.log2 N + 1 - Z.log2 D) * D)
        by (apply Z.mul_le_mono_nonneg_l; lia).
      rewrite <- E, (Z.mul_comm _ D) in H0. lia.
    + apply Z.leb_gt in C. replace (Z.max 0 (k - 1)) with (k - 1) by lia.
      replace (53 + (k - 1)) with (k + 52) by lia. lia.
  - apply Z.ltb_ge in K. replace (Z.max 0 (k - 1)) with 0 by lia.
    replace (53 + 0) with 53 by lia.
    assert (2 ^ (Z.log2 N + 1) <= 2 ^ (Z.log2 D + 53)) by (apply Z.pow_le_mono_r; unfold k in K; lia).
    rewrite (Z.pow_add_r 2 (Z.log2 D) 53) in H by lia.
    assert (2 ^ Z.log2 D * 2 ^ 53 <= D * 2 ^ 53)
      by (apply Z.mul_le_mono_nonneg_r; [apply Z.pow_nonneg|]; lia).
    lia.
Qed.

Lemma on_grid_scaled K j : 0 <= K < 2 ^ 53 -> 0 <= j -> on_grid (K * 2 ^ j).
Proof.
  intros HK Hj s Hs.
  destruct (Z.le_gt_cases s j) as [L|G].
  - left. exists (K * 2 ^ (j - s)).
    rewrite <- Z.mul_assoc, <- Z.pow_add_r by lia. do 2 f_equal. lia.
  - right.
    assert (2 ^ 53 * 2 ^ j <= 2 ^ (52 + s)).
    { rewrite <- Z.pow_add_r by lia. apply Z.pow_le_mono_r; lia. }
    assert (0 < 2 ^ j) by (apply Z.pow_pos_nonneg; lia).
    nia.
Qed.

Lemma round_pos_zero D : 0 < D -> round_pos 0 D = 0.
Proof.
  intros HD. unfold round_pos, nearest_even.
  assert (0 < D * 2 ^ ulp_exp 0 D).
  { pose proof (ulp_exp_nonneg 0 D). apply Z.mul_pos_pos; [lia | apply Z.pow_pos_nonneg; lia]. }
  rewrite Z.div_0_l, Z.mod_0_l by lia.
  replace (2 * 0) with 0 by lia.
  destruct (0 <? D * 2 ^ ulp_exp 0 D) eqn:C; [lia | apply Z.ltb_ge in C; lia].
Qed.

Lemma nearest_even_scaled_le N D p y :
  0 < D -> 0 < p -> N <= y * p * D -> nearest_even N (D * p) * p <= y * p.
Proof.
  intros HD Hp HB.
  assert (nearest_even N (D * p) <= y) by (apply nearest_even_le; nia).
  nia.
Qed.

Lemma nearest_even_scaled_ge N D p y :
  0 < D -> 0 < p -> y * p * D <= N -> y * p <= nearest_even N (D * p) * p.
Proof.
  intros HD Hp HB.
  assert (y <= nearest_even N (D * p)) by (apply nearest_even_ge; nia).
  nia.
Qed.

Lemma round_pos_le N D Y :
  0 <= N -> 0 < D -> on_grid Y -> N <= Y * D -> round_pos N D <= Y.
Proof.
  intros HN HD HY HB.
  destruct (Z.eq_dec N 0) as [->|NZ].
  { rewrite round_pos_zero by lia. nia. }
  unfold round_pos.
  pose proof (ulp_exp_nonneg N D) as Hs.
  destruct (Z.eq_dec (ulp_exp N D) 0) as [E|NE].
  { rewrite E. change (2 ^ 0) with 1. rewrite !Z.mul_1_r.
    apply nearest_even_le; lia. }
  pose proof (ulp_exp_lower N D ltac:(lia) HD ltac:(lia)) as L.
  destruct (HY _ Hs) as [[y ->]|Hlt].
  - apply nearest_even_scaled_le; [lia | apply Z.pow_pos_nonneg; lia | lia].
  - exfalso. assert (D * Y < D * 2 ^ (52 + ulp_exp N D))
      by (apply Z.mul_lt_mono_pos_l; lia).
    lia.
Qed.

Lemma round_pos_ge N D Y :
  0 <= N -> 0 < D -> on_grid Y -> Y * D <= N -> Y <= round_pos N D.
Proof.
  intros HN HD HY HB.
  destruct (Z.eq_dec N 0) as [->|NZ].
  { rewrite round_pos_zero by lia. nia. }
  unfold round_pos.
  pose proof (ulp_exp_nonneg N D) as Hs.
  destruct (Z.eq_dec (ulp_exp N D) 0) as [E|NE].
  { rewrite E. change (2 ^ 0) with 1. rewrite !Z.mul_1_r.
    apply nearest_even_ge; lia. }
  pose proof (ulp_exp_lower N D ltac:(lia) HD ltac:(lia)) as L.
  destruct (HY _ Hs) as [[y ->]|Hlt].
  - apply nearest_even_scaled_ge; [lia | apply Z.pow_pos_nonneg; lia | lia].
  - rewrite Z.pow_add_r in L, Hlt by lia.
    assert (P : 0 < 2 ^ ulp_exp N D) by (apply Z.pow_pos_nonneg; lia).
    pose proof (nearest_even_scaled_ge N D (2 ^ ulp_exp N D) (2 ^ 52) HD P ltac:(lia)).
    lia.
Qed.

Lemma nearest_even_mono N1 D1 N2 D2 :
  0 < D1 -> 0 < D2 -> N1 * D2 <= N2 * D1 ->
  nearest_even N1 D1 <= nearest_even N2 D2.
Proof.
  intros H1 H2 H. unfold nearest_even.
  pose proof (Z.div_mod N1 D1 ltac:(lia)) as E1.
  pose proof (Z.mod_pos_bound N1 D1 H1) as B1.
  pose proof (Z.div_mod N2 D2 ltac:(lia)) as E2.
  pose proof (Z.mod_pos_bound N2 D2 H2) as B2.
  set (q1 := N1 / D1) in *. set (r1 := N1 mod D1) in *.
  set (q2 := N2 / D2) in *. set (r2 := N2 mod D2) in *.
  clearbody q1 r1 q2 r2. subst N1 N2.
  assert (Q : q1 <= q2).
  { destruct (Z.le_gt_cases q1 q2) as [|G]; [assumption|exfalso].
    assert (D1 * D2 * (q2 + 1) <= D1 * D2 * q1)
      by (apply Z.mul_le_mono_nonneg_l; nia).
    nia. }
  destruct (Z.eq_dec q1 q2) as [EQ|NEQ].
  - rewrite <- EQ in *.
    assert (R : r1 * D2 <= r2 * D1) by nia.
    destruct (2 * r1 <? D1) eqn:C1.
    + destruct (2 * r2 <? D2); [lia|].
      destruct (D2 <? 2 * r2); [lia|]. destruct (Z.even q1); lia.
    + apply Z.ltb_ge in C1.
      assert (D2 <= 2 * r2) by nia.
      destruct (2 * r2 <? D2) eqn:C2; [apply Z.ltb_lt in C2; lia|].
      destruct (D2 <? 2 * r2) eqn:C3.
      * destruct (D1 <? 2 * r1); [lia|]. destruct (Z.even q1); lia.
      * apply Z.ltb_ge in C3. assert (2 * r1 <= D1) by nia.
        destruct (D1 <? 2 * r1) eqn:C4; [apply Z.ltb_lt in C4; lia|]. lia.
  - assert (q1 + 1 <= q2) by lia.
    destruct (2 * r1 <? D1); destruct (2 * r2 <? D2);
      destruct (D1 <? 2 * r1); destruct (D2 <? 2 * r2);
      destruct (Z.even q1); destruct (Z.even q2); lia.
Qed.

Lemma on_grid_pow2 j : 0 <= j -> on_grid (2 ^ j).
Proof.
  intros Hj. replace (2 ^ j) with (1 * 2 ^ j) by lia.
  apply on_grid_scaled; [|lia]. split; [lia|]. reflexivity.
Qed.

Lemma on_grid_pow2_scaled : on_grid (2 ^ 63 * one).
Proof.
  unfold one. rewrite <- Z.pow_add_r by lia. apply on_grid_pow2. lia.
Qed.

Lemma on_grid_zero : on_grid 0.
Proof. intros s _. left. exists 0. lia. Qed.

Lemma round_pos_nonneg N D : 0 <= N -> 0 < D -> 0 <= round_pos N D.
Proof. intros. apply round_pos_ge; [lia | lia | apply on_grid_zero | lia]. Qed.

(** Rounding is monotone. *)
Lemma round_pos_mono N1 D1 N2 D2 :
  0 <= N1 -> 0 < D1 -> 0 <= N2 -> 0 < D2 -> N1 * D2 <= N2 * D1 ->
  round_pos N1 D1 <= round_pos N2 D2.
Proof.
  intros HN1 HD1 HN2 HD2 H.
  destruct (Z.eq_dec N1 0) as [->|NZ1].
  { rewrite round_pos_zero by lia. apply round_pos_nonneg; lia. }
  assert (0 < N2) by nia.
  pose proof (ulp_exp_nonneg N1 D1) as S1.
  pose proof (ulp_exp_nonneg N2 D2) as S2.
  pose proof (ulp_exp_upper N1 D1 ltac:(lia) HD1) as U1.
  pose proof (ulp_exp_upper N2 D2 ltac:(lia) HD2) as U2.
  destruct (Z.lt_trichotomy (ulp_exp N1 D1) (ulp_exp N2 D2)) as [L|[E|G]].
  - pose proof (ulp_exp_lower N2 D2 ltac:(lia) HD2 ltac:(lia)) as L2.
    apply Z.le_trans with (2 ^ (53 + ulp_exp N1 D1)).
    + apply round_pos_le; [lia | lia | apply on_grid_pow2; lia | lia].
    + apply Z.le_trans with (2 ^ (52 + ulp_exp N2 D2)).
      * apply Z.pow_le_mono_r; lia.
      * apply round_pos_ge; [lia | lia | apply on_grid_pow2; lia | lia].
  - unfold round_pos. rewrite E.
    assert (P : 0 < 2 ^ ulp_exp N2 D2) by (apply Z.pow_pos_nonneg; lia).
    apply Z.mul_le_mono_nonneg_r; [lia|].
    apply nearest_even_mono; nia.
  - exfalso.
    pose proof (ulp_exp_lower N1 D1 ltac:(lia) HD1 ltac:(lia)) as L1.
    assert (2 ^ (53 + ulp_exp N2 D2) <= 2 ^ (52 + ulp_exp N1 D1))
      by (apply Z.pow_le_mono_r; lia).
    set (p1 := 2 ^ (52 + ulp_exp N1 D1)) in *.
    set (p2 := 2 ^ (53 + ulp_exp N2 D2)) in *.
    clearbody p1 p2.
    assert (D1 * p1 * D2 <= N1 * D2) by (apply Z.mul_le_mono_nonneg_r; lia).
    assert (N2 * D1 < D2 * p2 * D1) by (apply Z.mul_lt_mono_pos_r; lia).
    assert (D2 * p2 * D1 <= D2 * p1 * D1)
      by (apply Z.mul_le_mono_nonneg_r; [lia|]; apply Z.mul_le_mono_nonneg_l; lia).
    lia.
Qed.

Lemma one_pos : 0 < one.
Proof. apply Z.pow_pos_nonneg; lia. Qed.

Lemma no_overflow m : m <= 2 ^ 63 * one -> (overflow_threshold <=? m) = false.
Proof.
  intros H. apply Z.leb_gt.
  assert (2 ^ 63 * one < overflow_threshold) by (apply Z.ltb_lt; vm_compute; reflexivity).
  lia.
Qed.

Lemma round_nonneg N D :
  0 <= N -> 0 < D -> round_pos N D <= 2 ^ 63 * one ->
  round N D = FFin (round_pos N D).
Proof.
  intros HN HD HB. unfold round.
  replace (D =? 0) with false by (symmetry; apply Z.eqb_neq; lia).
  replace (D <? 0) with false by (symmetry; apply Z.ltb_ge; lia).
  rewrite (Z.abs_eq N), (Z.abs_eq D) by lia.
  rewrite no_overflow by exact HB. f_equal.
  destruct (Z.eq_dec N 0) as [->|NZ].
  - rewrite round_pos_zero by lia. reflexivity.
  - rewrite Z.sgn_pos by lia. lia.
Qed.

Lemma round_opp N D :
  N <= 0 -> 0 < D -> round_pos (- N) D <= 2 ^ 63 * one ->
  round N D = FFin (- round_pos (- N) D).
Proof.
  intros HN HD HB. unfold round.
  replace (D =? 0) with false by (symmetry; apply Z.eqb_neq; lia).
  replace (D <? 0) with false by (symmetry; apply Z.ltb_ge; lia).
  rewrite (Z.abs_neq N), (Z.abs_eq D) by lia.
  rewrite no_overflow by exact HB. f_equal.
  destruct (Z.eq_dec N 0) as [->|NZ].
  - cbn [Z.opp]. rewrite round_pos_zero by lia. reflexivity.
  - rewrite Z.sgn_neg by lia. lia.
Qed.

(** A value of at most 53 bits, scaled by a power of two, is a double:
    rounding leaves it as it is. *)
Lemma round_pos_exact Y : 0 <= Y -> on_grid Y -> round_pos Y 1 = Y.
Proof.
  intros H0 HY. apply Z.le_antisymm.
  - apply round_pos_le; [lia | lia | exact HY | lia].
  - apply round_pos_ge; [lia | lia | exact HY | lia].
Qed.

Lemma of_int_exact i : Z.abs i < 2 ^ 53 -> of_int i = FFin (i * one).
Proof.
  intros Hi. unfold of_int. pose proof one_pos as P.
  assert (G : on_grid (Z.abs i * one)) by (apply on_grid_scaled; lia).
  assert (B : Z.abs i * one <= 2 ^ 63 * one) by (apply Z.mul_le_mono_nonneg_r; lia).
  destruct (Z.le_gt_cases 0 i) as [Hp|Hn].
  - rewrite Z.abs_eq in G, B by lia.
    rewrite round_nonneg; rewrite ?round_pos_exact; trivial; nia.
  - rewrite Z.abs_neq in G, B by lia.
    replace (- i * one) with (- (i * one)) in G, B by lia.
    rewrite round_opp; rewrite ?round_pos_exact; trivial; try nia.
    f_equal; lia.
Qed.

(** The conversion of an [int] that is not negative. *)
Lemma of_int_nonneg i :
  0 <= i <= 2 ^ 63 ->
  of_int i = FFin (round_pos (i * one) 1) /\
  round_pos (i * one) 1 <= 2 ^ 63 * one.
Proof.
  intros Hi. pose proof one_pos as P.
  assert (B : round_pos (i * one) 1 <= 2 ^ 63 * one).
  { apply round_pos_le; [nia | lia | apply on_grid_pow2_scaled | nia]. }
  split; [|exact B]. unfold of_int. apply round_nonneg; [nia | lia | exact B].
Qed.

Lemma on_grid_int K : 0 <= K < 2 ^ 53 -> on_grid (K * one).
Proof. intros H. apply on_grid_scaled; lia. Qed.

Lemma on_grid_one : on_grid one.
Proof. apply on_grid_pow2. lia. Qed.

(** The quotient of two doubles that are not negative. *)
Lemma div_bounded a b K :
  0 <= a -> 0 < b -> 0 <= K <= 2 ^ 63 -> on_grid (K * one) -> a <= K * b ->
  div (FFin a) (FFin b) = FFin (round_pos (a * one) b) /\
  0 <= round_pos (a * one) b <= K * one.
Proof.
  intros Ha Hb HK G H. pose proof one_pos as P.
  assert (B : round_pos (a * one) b <= K * one).
  { apply round_pos_le; [nia | lia | exact G | nia]. }
  split.
  - unfold div. apply round_nonneg; [nia | lia | nia].
  - split; [apply round_pos_nonneg; nia | exact B].
Qed.

Lemma div_nonpos a b :
  - b <= a <= 0 -> 0 < b ->
  exists q, div (FFin a) (FFin b) = FFin q /\ - one <= q <= 0.
Proof.
  intros Ha Hb. pose proof one_pos as P.
  assert (B : round_pos (- (a * one)) b <= one).
  { apply round_pos_le; [nia | lia | apply on_grid_pow2; lia | nia]. }
  exists (- round_pos (- (a * one)) b). split.
  - unfold div. apply round_opp; [nia | lia | lia].
  - pose proof (round_pos_nonneg (- (a * one)) b ltac:(nia) Hb). lia.
Qed.

Lemma mul_bounded a K :
  0 <= a <= one -> 0 <= K < 2 ^ 53 ->
  mul (FFin a) (FFin (K * one)) = FFin (round_pos (a * (K * one)) one) /\
  0 <= round_pos (a * (K * one)) one <= K * one.
Proof.
  intros Ha HK. pose proof one_pos as P.
  assert (B : round_pos (a * (K * one)) one <= K * one).
  { apply round_pos_le; [nia | lia | apply on_grid_int; lia | nia]. }
  split.
  - unfold mul. apply round_nonneg; [nia | lia | nia].
  - split; [apply round_pos_nonneg; nia | exact B].
Qed.

Lemma Ceil_bounded p K :
  0 <= p <= K * one ->
  exists c, Ceil (FFin p) = FFin (c * one) /\ 0 <= c <= K.
Proof.
  intros Hp. pose proof one_pos as P.
  exists (- (- p / one)). split; [reflexivity|].
  assert (- K <= - p / one) by (apply Z.div_le_lower_bound; lia).
  assert (- p / one <= 0) by (apply Z.div_le_upper_bound; lia).
  lia.
Qed.

(** The normalized score of totals with [0 <= score <= maximumScore] is a
    number between 0 and 1. *)
Lemma normalize_bounds a b :
  0 <= a <= b -> 0 < b <= 2 ^ 63 ->
  exists m, normalize a b = FFin m /\ 0 <= m <= one.
Proof.
  intros Ha Hb. pose proof one_pos as P.
  destruct (of_int_nonneg a ltac:(lia)) as [Ea Ba].
  destruct (of_int_nonneg b ltac:(lia)) as [Eb Bb].
  assert (Ma : 0 <= round_pos (a * one) 1) by (apply round_pos_nonneg; nia).
  assert (Mab : round_pos (a * one) 1 <= round_pos (b * one) 1)
    by (apply round_pos_mono; nia).
  assert (Mb : one <= round_pos (b * one) 1)
    by (apply round_pos_ge; [nia | lia | apply on_grid_one | nia]).
  unfold normalize. rewrite Ea, Eb.
  destruct (div_bounded (round_pos (a * one) 1) (round_pos (b * one) 1) 1)
    as [-> Hq]; [lia | lia | lia | rewrite Z.mul_1_l; apply on_grid_one | lia |].
  rewrite (of_int_exact 100) by (cbn; lia).
  destruct (mul_bounded (round_pos (round_pos (a * one) 1 * one) (round_pos (b * one) 1)) 100)
    as [-> Hp]; [lia | lia |].
  destruct (Ceil_bounded _ 100 Hp) as (c & -> & Hc).
  destruct (div_bounded (c * one) (100 * one) 1) as [-> Hr];
    [nia | lia | lia | rewrite Z.mul_1_l; apply on_grid_one | nia |].
  eexists. split; [reflexivity | lia].
Qed.

Lemma add_nonneg x y :
  0 <= x + y <= 2 ^ 63 * one ->
  add (FFin x) (FFin y) = FFin (round_pos (x + y) 1) /\
  0 <= round_pos (x + y) 1.
Proof.
  intros H. split; [|apply round_pos_nonneg; lia].
  unfold add. apply round_nonneg; [lia | lia |].
  apply round_pos_le; [lia | lia | apply on_grid_pow2_scaled | lia].
Qed.

Lemma add_nonpos x y :
  - (2 ^ 63 * one) <= x + y <= 0 ->
  exists s, add (FFin x) (FFin y) = FFin s /\ s <= 0.
Proof.
  intros H. exists (- round_pos (- (x + y)) 1). split.
  - unfold add. apply round_opp; [lia | lia |].
    apply round_pos_le; [lia | lia | apply on_grid_pow2_scaled | lia].
  - pose proof (round_pos_nonneg (- (x + y)) 1). lia.
Qed.

(** A duration is more than 720 hours long by [Hours] exactly when it is
    more than 720 hours of nanoseconds. *)
Lemma Hours_gt_720 d :
  Time.minDuration <= d <= Time.maxDuration ->
  gtb (Time.Hours d) (of_int 720) = (720 * Time.Hour <? d).
Proof.
  unfold Time.minDuration, Time.maxDuration. intros Hd.
  pose proof one_pos as P.
  unfold Time.Hours.
  change (60 * 60 * 1000000000) with Time.Hour.
  pose proof (Z.quot_rem' d Time.Hour) as E.
  set (hour := Z.quot d Time.Hour) in *.
  set (nsec := Z.rem d Time.Hour) in *.
  assert (HH : Time.Hour = 3600000000000) by reflexivity.
  assert (H42 : 2 ^ 1032 * Time.Hour <= one)
    by (apply Z.leb_le; vm_compute; reflexivity).
  assert (O42 : one = 2 ^ 42 * 2 ^ 1032) by (vm_compute; reflexivity).
  rewrite (of_int_exact 720) by (cbn; lia).
  rewrite (of_int_exact Time.Hour) by (rewrite HH; cbn; lia).
  destruct (Z.le_gt_cases 0 d) as [Pos|Neg].
  - pose proof (Z.rem_bound_pos d Time.Hour Pos ltac:(lia)) as Bn. fold nsec in Bn.
    assert (Bh : 0 <= hour <= 2 ^ 22) by (cbn; lia).
    rewrite (of_int_exact hour), (of_int_exact nsec) by (cbn in *; lia).
    destruct (div_bounded (nsec * one) (Time.Hour * one) 1) as [-> Hf];
      [nia | lia | lia | rewrite Z.mul_1_l; apply on_grid_one | nia |].
    set (f := round_pos (nsec * one * one) (Time.Hour * one)) in *.
    destruct (add_nonneg (hour * one) f) as [-> S0]; [cbn in *; nia|].
    cbn [gtb].
    destruct (Z.ltb_spec (720 * Time.Hour) d) as [Gt|Le].
    + apply Z.ltb_lt.
      destruct (Z.le_gt_cases 721 hour) as [Hi|Lo].
      * assert (721 * one <= round_pos (hour * one + f) 1)
          by (apply round_pos_ge; [nia | lia | apply on_grid_int; cbn; lia | nia]).
        lia.
      * assert (hour = 720) by lia. assert (1 <= nsec) by lia.
        assert (F : 2 ^ 1032 <= f).
        { apply round_pos_ge; [nia | lia | apply on_grid_pow2; lia |].
          assert (2 ^ 1032 * Time.Hour * one <= one * one)
            by (apply Z.mul_le_mono_nonneg_r; lia).
          nia. }
        assert ((720 * 2 ^ 42 + 1) * 2 ^ 1032 <= round_pos (hour * one + f) 1).
        { apply round_pos_ge; [nia | lia | apply on_grid_scaled; cbn; lia | ].
          rewrite H, O42. clear - F. set (u := 2 ^ 1032) in *. clearbody u. lia. }
        rewrite O42 in *. set (u := 2 ^ 1032) in *.
        assert (0 < u) by (apply Z.pow_pos_nonneg; lia). clearbody u. lia.
    + apply Z.ltb_ge.
      destruct (Z.eq_dec hour 720) as [E720|NE].
      * assert (N0 : nsec = 0) by lia.
        assert (F0 : f = 0) by (unfold f; rewrite N0; apply round_pos_zero; lia).
        rewrite F0, E720, Z.add_0_r.
        rewrite round_pos_exact; [lia | lia | apply on_grid_int; cbn; lia].
      * assert (hour <= 719) by lia.
        apply round_pos_le; [nia | lia | apply on_grid_int; cbn; lia | nia].
  - assert (Bn : - Time.Hour < nsec <= 0).
    { pose proof (Z.rem_bound_abs d Time.Hour ltac:(lia)).
      pose proof (Z.rem_nonpos d Time.Hour ltac:(lia) ltac:(lia)).
      unfold nsec. lia. }
    assert (Bh : - 2 ^ 22 <= hour <= 0) by (cbn; lia).
    rewrite (of_int_exact hour), (of_int_exact nsec) by (cbn in *; lia).
    destruct (div_nonpos (nsec * one) (Time.Hour * one)) as (f & -> & Hf); [nia | lia |].
    destruct (add_nonpos (hour * one) f) as (s & -> & Hs); [cbn in *; nia|].
    cbn [gtb].
    replace (720 * Time.Hour <? d) with false by (symmetry; apply Z.ltb_ge; lia).
    apply Z.ltb_ge. lia.
Qed.

(** On the samples the operations of [Float64] give the doubles that
    [SpecFloat] specifies. *)
Lemma agrees_with_SpecFloat : forallb Float64_validation.agree Float64_validation.samples = true.
Proof. vm_cast_no_check (eq_refl true). Qed.

End Float64_facts.

(** ** Properties of the scorers *)
Module scoring_facts.
Import Strings models services examples notions.

(** Case analysis over the conditionals of a scoring table. *)
Ltac score_cases :=
  repeat match goal with
         | |- context [if ?b then _ else _] => destruct b
         end;
  cbn; try lia.

Lemma GetXSSScore_range val : 0 <= fst (GetXSSScore val) <= 5.
Proof. unfold GetXSSScore. cbn [fst]. score_cases. Qed.

Lemma GetXFrameScore_range w val : 0 <= GetXFrameScore w val <= 5.
Proof. unfold GetXFrameScore. score_cases. Qed.

Lemma GetHSTSScore_range val : 0 <= GetHSTSScore val <= 5.
Proof. unfold GetHSTSScore. score_cases. Qed.

Lemma GetReferrerPolicyScore_range w val : 0 <= GetReferrerPolicyScore w val <= 5.
Proof. unfold GetReferrerPolicyScore. score_cases. Qed.

Lemma GetXContentTypeScore_range w val : 0 <= GetXContentTypeScore w val <= 5.
Proof. unfold GetXContentTypeScore. score_cases. Qed.

Lemma GetHTTPVersionScore_range w proto : 0 <= GetHTTPVersionScore w proto <= 5.
Proof. unfold GetHTTPVersionScore. score_cases. Qed.

Lemma GetTLSVersionScore_range version : 0 <= GetTLSVersionScore version <= 5.
Proof. unfold GetTLSVersionScore. score_cases. Qed.

(** The scoring tables on some header values. *)
Example XFrame_deny : GetXFrameScore scenario " Deny " = 5.
Proof. reflexivity. Qed.

Example XFrame_allow_from : GetXFrameScore scenario "ALLOW-FROM https://a.example" = 4.
Proof. reflexivity. Qed.

Example HSTS_preload : GetHSTSScore "max-age=63072000; preload" = 5.
Proof. reflexivity. Qed.

Example HSTS_max_age : GetHSTSScore "max-age=300" = 4.
Proof. reflexivity. Qed.

Example ReferrerPolicy_unknown : GetReferrerPolicyScore scenario "never" = 0.
Proof. reflexivity. Qed.

Example XContentType_nosniff : GetXContentTypeScore scenario "NoSniff" = 5.
Proof. reflexivity. Qed.

Example HTTP_versions :
  GetHTTPVersionScore scenario "HTTP/2.0" = 5
  /\ GetHTTPVersionScore scenario "HTTP/1.1" = 2
  /\ GetHTTPVersionScore scenario "HTTP/1.0" = 0.
Proof. repeat split; reflexivity. Qed.

Example scenario_header_total :
  totalScore (score_response scenario scenario_response) = 28
  /\ totalScore (score_response scenario bare_response) = 0 + 1 + 2 + 3 + 3 + 2 + 0 + 2.
Proof. split; vm_compute; reflexivity. Qed.

(** The total of the header scorer is the sum of its nine checks. *)
Lemma score_response_total w response :
  totalScore (score_response w response) =
    fst (XSS_check (header_map response))
    + XFrame_check w (header_map response)
    + HSTS_check (header_map response)
    + CSP_check (header_map response)
    + PKP_check (header_map response)
    + RP_check w (header_map response)
    + XContentType_check w (header_map response)
    + GetHTTPVersionScore w (Proto response)
    + TLS_points response.
Proof.
  unfold score_response, TLS_points. fold (header_map response).
  destruct (XSS_check (header_map response)) as [xss report].
  destruct (TLS response); cbn; lia.
Qed.

Lemma score_response_max w response : maxScore (score_response w response) = 45.
Proof.
  unfold score_response. fold (header_map response).
  destruct (XSS_check (header_map response)). reflexivity.
Qed.

Lemma XSS_check_range h : 0 <= fst (XSS_check h) <= 5.
Proof.
  unfold XSS_check. destruct (h !! XSSHeader); [apply GetXSSScore_range | cbn; lia].
Qed.

Lemma XFrame_check_range w h : 0 <= XFrame_check w h <= 5.
Proof.
  unfold XFrame_check. destruct (h !! XFrameHeader); [apply GetXFrameScore_range | lia].
Qed.

Lemma HSTS_check_range h : 0 <= HSTS_check h <= 5.
Proof.
  unfold HSTS_check. destruct (h !! HSTSHeader); [apply GetHSTSScore_range | lia].
Qed.

Lemma CSP_check_range h : 3 <= CSP_check h <= 5.
Proof. unfold CSP_check. destruct (h !! CSPHeader); lia. Qed.

Lemma PKP_check_range h : 3 <= PKP_check h <= 5.
Proof. unfold PKP_check. destruct (h !! PKPHeader); lia. Qed.

Lemma RP_check_range w h : 0 <= RP_check w h <= 5.
Proof.
  unfold RP_check. destruct (h !! RPHeader); [apply GetReferrerPolicyScore_range | lia].
Qed.

Lemma XContentType_check_range w h : 0 <= XContentType_check w h <= 5.
Proof.
  unfold XContentType_check.
  destruct (h !! XContentTypeHeader); [apply GetXContentTypeScore_range | lia].
Qed.

Lemma TLS_points_range response : 0 <= TLS_points response <= 5.
Proof.
  unfold TLS_points. destruct (TLS response); [apply GetTLSVersionScore_range | lia].
Qed.

(** The header scorer gives at least 6 points (the two headers scored by
    presence alone give 3 each) and at most 45. *)
Lemma score_response_range w response : 6 <= totalScore (score_response w response) <= 45.
Proof.
  rewrite score_response_total.
  pose proof (XSS_check_range (header_map response)).
  pose proof (XFrame_check_range w (header_map response)).
  pose proof (HSTS_check_range (header_map response)).
  pose proof (CSP_check_range (header_map response)).
  pose proof (PKP_check_range (header_map response)).
  pose proof (RP_check_range w (header_map response)).
  pose proof (XContentType_check_range w (header_map response)).
  pose proof (GetHTTPVersionScore_range w (Proto response)).
  pose proof (TLS_points_range response).
  lia.
Qed.

Lemma GetResponseHeaderScore_Ok w url response :
  IsValidURL w url = None -> http_Head w url = inr response ->
  GetResponseHeaderScore w url = Ok (score_response w response).
Proof. intros V H. unfold GetResponseHeaderScore. rewrite V, H. reflexivity. Qed.

(** C10: on every response of a successful probe the header scorer returns
    the maximum 45, whatever the headers and with or without TLS; the TLS
    version adds its points to the total and nothing to the maximum, and
    the total is at most 45. *)
Theorem header_maximum_is_45 w url response :
  IsValidURL w url = None -> http_Head w url = inr response ->
  GetResponseHeaderScore w url = Ok (score_response w response)
  /\ maxScore (score_response w response) = 45
  /\ totalScore (score_response w response) <= 45
  /\ totalScore (score_response w response)
     = totalScore (score_response w (without_TLS response)) + TLS_points response
  /\ maxScore (score_response w (without_TLS response))
     = maxScore (score_response w response).
Proof.
  intros V H. split; [apply GetResponseHeaderScore_Ok; assumption|].
  split; [apply score_response_max|].
  split; [apply score_response_range|].
  split; [|rewrite !score_response_max; reflexivity].
  rewrite !score_response_total.
  change (header_map (without_TLS response)) with (header_map response).
  change (Proto (without_TLS response)) with (Proto response).
  change (TLS_points (without_TLS response)) with 0. lia.
Qed.

Lemma header_maximum_is_45_witness :
  GetResponseHeaderScore scenario scenario_url = Ok (score_response scenario scenario_response)
  /\ maxScore (score_response scenario scenario_response) = 45
  /\ totalScore (score_response scenario scenario_response) <= 45
  /\ totalScore (score_response scenario scenario_response)
     = totalScore (score_response scenario (without_TLS scenario_response))
       + TLS_points scenario_response
  /\ maxScore (score_response scenario (without_TLS scenario_response))
     = maxScore (score_response scenario scenario_response).
Proof.
  apply (header_maximum_is_45 scenario scenario_url scenario_response); reflexivity.
Defined.

(** *** The protocol scorer and the aggregation *)

Lemma CalculateProtocolScore_https :
  CalculateProtocolScore "https" = (5, message_https).
Proof. reflexivity. Qed.

Lemma CalculateProtocolScore_http :
  CalculateProtocolScore "http" = (0, message_http).
Proof. reflexivity. Qed.

Lemma CalculateProtocolScore_other p :
  p <> "http" -> p <> "https" ->
  CalculateProtocolScore p = (-1, message_unknown).
Proof.
  intros H1 H2. unfold CalculateProtocolScore, Equal.
  apply String.eqb_neq in H1, H2. rewrite H1, H2. reflexivity.
Qed.

Lemma CalculateProtocolScore_range p : -1 <= fst (CalculateProtocolScore p) <= 5.
Proof. unfold CalculateProtocolScore. score_cases. Qed.

(** What a run of [overall_totals] that returns has computed. *)
Lemma overall_totals_Ok w url t :
  overall_totals w url = Ok t ->
  exists domain response mailServerScore mailMax,
    url_Parse w url = inr domain
    /\ IsValidURL w url = None
    /\ http_Head w url = inr response
    /\ GetMailServerConfigurationScore w (host t) = Ok (mailServerScore, mailMax)
    /\ protocol t = Scheme domain
    /\ messages t = [snd (CalculateProtocolScore (Scheme domain))]
    /\ score t = fst (CalculateProtocolScore (Scheme domain))
                 + totalScore (score_response w response) + mailServerScore
    /\ maximumScore t = 5 + maxScore (score_response w response) + mailMax
    /\ normalized t = normalize (score t) (maximumScore t).
Proof.
  unfold overall_totals, GetResponseHeaderScore.
  destruct (url_Parse w url) as [err|domain]; [discriminate|].
  destruct (if Contains (Host domain) ":" then _ else _) as [h p].
  destruct (CalculateProtocolScore (Scheme domain)) as [protocolScore protocolMessage] eqn:P.
  destruct (IsValidURL w url) as [err|]; [discriminate|].
  destruct (http_Head w url) as [err|response]; [discriminate|].
  cbn [bind].
  destruct (GetMailServerConfigurationScore w h) as [[ms mm]| | |] eqn:M;
    cbn [bind]; try discriminate.
  intros [= <-]. cbn.
  exists domain, response, ms, mm. rewrite P. cbn [fst snd].
  repeat split; trivial; lia.
Qed.

(** C2 (amended): [https] scores 5 of 5 with the secure message and [http]
    0 of 5 with the MITM and eavesdropping message; for every other scheme
    the protocol scorer returns the score -1 with the message Protocol Not
    Found.  For every scheme the aggregation adds the returned score to the
    achieved total and 5 to the maximum, and the message list is the
    scorer's message alone. *)
Theorem protocol_contribution :
  CalculateProtocolScore "https" = (5, "From the protocol level, Website is secure.")
  /\ CalculateProtocolScore "http" =
       (0, "Website is unencrypted and hence subjective to Man-in-the-Middle attacks(MITM) and Eavesdropping Attacks.")
  /\ (forall p, p <> "http" -> p <> "https" ->
        CalculateProtocolScore p = (-1, "Protocol Not Found"))
  /\ (forall w url t, overall_totals w url = Ok t ->
        messages t = [snd (CalculateProtocolScore (protocol t))]
        /\ exists response mailServerScore mailMax,
             http_Head w url = inr response
             /\ GetMailServerConfigurationScore w (host t) = Ok (mailServerScore, mailMax)
             /\ score t = fst (CalculateProtocolScore (protocol t))
                          + (totalScore (score_response w response) + mailServerScore)
             /\ maximumScore t = 5 + (maxScore (score_response w response) + mailMax)).
Proof.
  split; [reflexivity|]. split; [reflexivity|].
  split; [exact CalculateProtocolScore_other|].
  intros w url t H.
  destruct (overall_totals_Ok w url t H)
    as (domain & response & ms & mm & _ & _ & Hh & Hm & -> & Hmsg & Hs & Hx & _).
  split; [exact Hmsg|].
  exists response, ms, mm. repeat split; trivial; lia.
Qed.

(** C2 as the specification states it does not hold: on the scheme [ftp]
    the scorer's achieved value is -1, not 0. *)
Lemma unknown_scheme_scores_minus_one :
  ~ (fst (CalculateProtocolScore "ftp") = 0)
  /\ CalculateProtocolScore "ftp" = (-1, "Protocol Not Found").
Proof. split; [discriminate | reflexivity]. Qed.

(** *** The SPF scorer *)

(** Two returned pairs are equal when their components are. *)
Ltac ok_pair := f_equal; apply pair_equal_spec; split; lia.

Lemma slice_quotes line :
  2 <= len line -> slice line 1 (len line - 1) = Ok (take (Z.to_nat (len line - 2)) (drop 1 line)).
Proof.
  intros H. unfold slice.
  replace ((0 <=? 1) && (1 <=? len line - 1) && (len line - 1 <=? len line)) with true.
  - replace (len line - 1 - 1) with (len line - 2) by lia. reflexivity.
  - symmetry. rewrite !andb_true_iff, !Z.leb_le. lia.
Qed.

(** Two suffixes of the same length that both end a string are equal. *)
Lemma HasSuffix_same_length s a b :
  HasSuffix s a = true -> HasSuffix s b = true ->
  String.length a = String.length b -> a = b.
Proof.
  unfold HasSuffix. intros Ha Hb L.
  apply andb_true_iff in Ha as [_ Ha]. apply andb_true_iff in Hb as [_ Hb].
  apply String.eqb_eq in Ha, Hb. rewrite L in Ha. congruence.
Qed.

Lemma HasSuffix_exclusive s a b :
  HasSuffix s a = true -> String.length a = String.length b -> a <> b ->
  HasSuffix s b = false.
Proof.
  intros Ha L N. destruct (HasSuffix s b) eqn:Hb; [|reflexivity].
  exfalso. apply N. eapply HasSuffix_same_length; eassumption.
Qed.

Lemma count_ending_cons suffix line lines :
  count_ending suffix (line :: lines) =
    (if HasSuffix (txt_record line) suffix then 1 else 0) + count_ending suffix lines.
Proof.
  unfold count_ending. cbn [List.filter].
  destruct (HasSuffix (txt_record line) suffix); cbn [length]; lia.
Qed.

Lemma count_ending_nonneg suffix lines : 0 <= count_ending suffix lines.
Proof. unfold count_ending. lia. Qed.

(** The loop over quoted lines: the totals it adds. *)
Lemma scan_records_quoted lines : forall totalScore spfRecordCount,
  Forall (fun line => 2 <= len line) lines ->
  scan_records lines totalScore spfRecordCount =
    Ok (totalScore + 5 * count_ending "-all" lines + 3 * count_ending "~all" lines
          + 2 * count_ending "?all" lines,
        spfRecordCount + count_ending "-all" lines + count_ending "~all" lines
          + count_ending "?all" lines + count_ending "+all" lines).
Proof.
  induction lines as [|line lines IH]; intros t c Q.
  - unfold count_ending. cbn. ok_pair.
  - inversion Q as [|? ? Hl Q']; subst.
    cbn [scan_records]. rewrite slice_quotes by exact Hl. cbn [bind].
    fold (txt_record line). rewrite !count_ending_cons.
    destruct (HasSuffix (txt_record line) "-all") eqn:E1.
    { rewrite (HasSuffix_exclusive _ _ "~all" E1), (HasSuffix_exclusive _ _ "?all" E1),
        (HasSuffix_exclusive _ _ "+all" E1) by (reflexivity || discriminate).
      rewrite IH by exact Q'. ok_pair. }
    destruct (HasSuffix (txt_record line) "~all") eqn:E2.
    { rewrite (HasSuffix_exclusive _ _ "?all" E2), (HasSuffix_exclusive _ _ "+all" E2)
        by (reflexivity || discriminate).
      rewrite IH by exact Q'. ok_pair. }
    destruct (HasSuffix (txt_record line) "?all") eqn:E3.
    { rewrite (HasSuffix_exclusive _ _ "+all" E3) by (reflexivity || discriminate).
      rewrite IH by exact Q'. ok_pair. }
    destruct (HasSuffix (txt_record line) "+all") eqn:E4;
      rewrite IH by exact Q'; ok_pair.
Qed.

(** The loop over any lines: what it adds, when no line makes it panic. *)
Lemma scan_records_bounds lines : forall totalScore spfRecordCount s n,
  scan_records lines totalScore spfRecordCount = Ok (s, n) ->
  0 <= s - totalScore <= 5 * (n - spfRecordCount).
Proof.
  induction lines as [|line lines IH]; intros t c s n.
  - cbn. intros [= <- <-]. lia.
  - cbn [scan_records]. destruct (slice line 1 (len line - 1)); cbn [bind]; try discriminate.
    repeat match goal with
           | |- context [if ?b then _ else _] => destruct b
           end;
      intros H; apply IH in H; lia.
Qed.

(** C7: for every list of TXT records that [dig] printed, each in its
    quotes, the SPF scorer awards 5 for a record ending in -all, 3 for one
    ending in ~all, 2 for one ending in ?all and 0 for one ending in +all;
    each such record adds 5 to the maximum and the other records add
    nothing, so the maximum is 5 times the number of qualifying records. *)
Theorem spf_score_per_record w domain lines :
  Bufio.ScanLines (fst (bash_Output w (Replace TXTQuery "domain.com" domain))) = lines ->
  Forall (fun line => 2 <= len line) lines ->
  GetSPFScore w domain =
    Ok (5 * count_ending "-all" lines + 3 * count_ending "~all" lines
          + 2 * count_ending "?all" lines + 0 * count_ending "+all" lines,
        5 * (count_ending "-all" lines + count_ending "~all" lines
               + count_ending "?all" lines + count_ending "+all" lines)).
Proof.
  intros L Q. unfold GetSPFScore.
  destruct (bash_Output w (Replace TXTQuery "domain.com" domain)) as [out err].
  cbn [fst] in L. rewrite L, scan_records_quoted by exact Q. cbn [bind].
  ok_pair.
Qed.

Lemma GetSPFScore_range w domain s m :
  GetSPFScore w domain = Ok (s, m) -> 0 <= s <= m.
Proof.
  unfold GetSPFScore.
  destruct (bash_Output w (Replace TXTQuery "domain.com" domain)) as [out err].
  destruct (scan_records (Bufio.ScanLines out) 0 0) as [[t n]| | |] eqn:E;
    cbn [bind]; try discriminate.
  intros [= <- <-]. apply scan_records_bounds in E. lia.
Qed.

(** *** The DMARC scorer *)

Lemma GetDMARCScore_range w domain s :
  GetDMARCScore w domain = Ok s -> 0 <= s <= 5.
Proof.
  unfold GetDMARCScore.
  destruct (bash_Output w (Replace DMARCQuery "domain.com" domain)) as [out [err|]];
    [discriminate|].
  destruct (2 <? len out); [|intros [= <-]; lia].
  destruct (slice out 1 (len out - 1)); cbn [bind]; try discriminate.
  destruct (HasPrefix _ _); intros [= <-]; lia.
Qed.

Lemma GetMailServerConfigurationScore_Ok w host0 s m :
  GetMailServerConfigurationScore w host0 = Ok (s, m) ->
  exists spfScore spfMax dmarcScore,
    let domain := if HasPrefix host0 "www." then Replace host0 "www." "" else host0 in
    GetSPFScore w domain = Ok (spfScore, spfMax)
    /\ GetDMARCScore w domain = Ok dmarcScore
    /\ s = spfScore + dmarcScore /\ m = spfMax + 5.
Proof.
  unfold GetMailServerConfigurationScore.
  set (domain := if HasPrefix host0 "www." then _ else _).
  destruct (GetSPFScore w domain) as [[spf spfMax]| | |]; cbn [bind]; try discriminate.
  destruct (GetDMARCScore w domain) as [d| | |]; cbn [bind]; try discriminate.
  intros [= <- <-]. exists spf, spfMax, d. cbn. repeat split; lia.
Qed.

Lemma GetMailServerConfigurationScore_range w host0 s m :
  GetMailServerConfigurationScore w host0 = Ok (s, m) -> 0 <= s <= m /\ 5 <= m.
Proof.
  intros H. apply GetMailServerConfigurationScore_Ok in H as (a & b & d & Hs & Hd & -> & ->).
  apply GetSPFScore_range in Hs. apply GetDMARCScore_range in Hd. lia.
Qed.

(** *** The incident scorer *)

Lemma Sub_range t u : Time.minDuration <= Time.Sub t u <= Time.maxDuration.
Proof.
  unfold Time.Sub, Time.minDuration, Time.maxDuration.
  destruct (Z.ltb_spec (t - u) (- 2 ^ 63)); [lia|].
  destruct (Z.ltb_spec (2 ^ 63 - 1) (t - u)); lia.
Qed.

Lemma incident_score_points w incident :
  incident_score w incident = incident_points w incident.
Proof.
  unfold incident_score, incident_points, MaxIncidentResponseTime.
  destruct (Fixed incident); [|reflexivity].
  fold (remediation_time w incident).
  rewrite Float64_facts.Hours_gt_720 by apply Sub_range.
  destruct (Z.ltb_spec (720 * Time.Hour) (remediation_time w incident));
    destruct (Z.leb_spec (remediation_time w incident) (720 * Time.Hour));
    reflexivity || lia.
Qed.

Lemma score_incidents_total w incidents : forall totalScore,
  score_incidents w incidents totalScore = totalScore + total_points w incidents.
Proof.
  induction incidents as [|incident rest IH]; intros t; cbn [score_incidents total_points].
  - lia.
  - rewrite IH, incident_score_points. lia.
Qed.

Lemma incident_points_range w incident : 0 <= incident_points w incident <= 10.
Proof. unfold incident_points. score_cases. Qed.

Lemma total_points_range w incidents :
  0 <= total_points w incidents <= Z.of_nat (length incidents) * 10.
Proof.
  induction incidents as [|incident rest IH]; cbn [total_points length]; [lia|].
  pose proof (incident_points_range w incident). lia.
Qed.

Lemma GetPreviousVulnerabilitiesScore_Ok w host0 body incidents :
  http_Get w (OpenBugBountyURL +:+ bare_host host0) = inr (inr body) ->
  xml_Unmarshal w body = inr incidents ->
  GetPreviousVulnerabilitiesScore w host0 =
    Ok (total_points w incidents, Z.of_nat (length incidents) * 10, incidents).
Proof.
  intros G X. unfold GetPreviousVulnerabilitiesScore. fold (bare_host host0).
  rewrite G, X, score_incidents_total. reflexivity.
Qed.

(** C8 (amended): for every incident list the feed delivers, the incident
    scorer awards points for fixed incidents only, 10 when the remediation
    time is at most 720 hours and 5 when it is longer; the maximum is 10
    times the number of incidents, fixed or not, and an empty list gives
    0 of 0. *)
Theorem incident_score_rule w host0 body incidents :
  http_Get w (OpenBugBountyURL +:+ bare_host host0) = inr (inr body) ->
  xml_Unmarshal w body = inr incidents ->
  GetPreviousVulnerabilitiesScore w host0 =
    Ok (total_points w incidents, 10 * Z.of_nat (length incidents), incidents)
  /\ (forall incident,
        (Fixed incident = false -> incident_points w incident = 0)
        /\ (Fixed incident = true -> remediation_time w incident <= 720 * Time.Hour ->
              incident_points w incident = 10)
        /\ (Fixed incident = true -> 720 * Time.Hour < remediation_time w incident ->
              incident_points w incident = 5))
  /\ (incidents = [] -> GetPreviousVulnerabilitiesScore w host0 = Ok (0, 0, [])).
Proof.
  intros G X.
  rewrite (GetPreviousVulnerabilitiesScore_Ok w host0 body incidents G X).
  split; [do 3 f_equal; lia|]. split.
  - intros incident. unfold incident_points. repeat split; intros F.
    + rewrite F. reflexivity.
    + intros L. rewrite F. apply Z.leb_le in L. rewrite L. reflexivity.
    + intros L. rewrite F. apply Z.leb_gt in L. rewrite L. reflexivity.
  - intros ->. reflexivity.
Qed.

(** *** The XSS-Protection check *)

Lemma HasPrefix_app sep u : HasPrefix (sep +:+ u) sep = true.
Proof.
  induction sep as [|c sep IH]; [reflexivity|].
  change (String c sep +:+ u) with (String c (sep +:+ u)).
  cbn [HasPrefix]. rewrite Ascii.eqb_refl, IH. reflexivity.
Qed.







(** *** The range of every contribution *)

Lemma GetPreviousVulnerabilitiesScore_range w host0 s m incidents :
  GetPreviousVulnerabilitiesScore w host0 = Ok (s, m, incidents) -> 0 <= s <= m.
Proof.
  unfold GetPreviousVulnerabilitiesScore.
  destruct (http_Get w _) as [e|[e|body]]; try discriminate.
  destruct (xml_Unmarshal w body) as [e|l]; [discriminate|].
  rewrite score_incidents_total. intros [= <- <- <-].
  pose proof (total_points_range w l). lia.
Qed.

(** C3 (amended): the contributions of the header checks (each between 0
    and its maximum 5), of the header scorer as a whole and of the SPF,
    DMARC and incident scorers satisfy 0 <= achieved <= maximum; the
    achieved value of the protocol scorer is 0 for http, 5 for https and
    -1 for every other scheme, so it lies between -1 and the maximum 5. *)
Theorem contributions_bounded :
  (forall p,
     -1 <= fst (CalculateProtocolScore p) <= 5
     /\ (p = "http" -> fst (CalculateProtocolScore p) = 0)
     /\ (p = "https" -> fst (CalculateProtocolScore p) = 5)
     /\ (p <> "http" -> p <> "https" -> fst (CalculateProtocolScore p) = -1))
  /\ (forall w h proto version,
        0 <= fst (XSS_check h) <= 5 /\ 0 <= XFrame_check w h <= 5
        /\ 0 <= HSTS_check h <= 5 /\ 0 <= CSP_check h <= 5
        /\ 0 <= PKP_check h <= 5 /\ 0 <= RP_check w h <= 5
        /\ 0 <= XContentType_check w h <= 5
        /\ 0 <= GetHTTPVersionScore w proto <= 5
        /\ 0 <= GetTLSVersionScore version <= 5)
  /\ (forall w response,
        0 <= totalScore (score_response w response) <= maxScore (score_response w response))
  /\ (forall w domain s m, GetSPFScore w domain = Ok (s, m) -> 0 <= s <= m)
  /\ (forall w domain s, GetDMARCScore w domain = Ok s -> 0 <= s <= 5)
  /\ (forall w host0 s m incidents,
        GetPreviousVulnerabilitiesScore w host0 = Ok (s, m, incidents) -> 0 <= s <= m).
Proof.
  split.
  { intros p. split; [apply CalculateProtocolScore_range|].
    split; [intros ->; reflexivity|]. split; [intros ->; reflexivity|].
    intros H1 H2. rewrite CalculateProtocolScore_other by assumption. reflexivity. }
  split.
  { intros w h proto version.
    pose proof (XSS_check_range h). pose proof (XFrame_check_range w h).
    pose proof (HSTS_check_range h). pose proof (CSP_check_range h).
    pose proof (PKP_check_range h). pose proof (RP_check_range w h).
    pose proof (XContentType_check_range w h).
    pose proof (GetHTTPVersionScore_range w proto).
    pose proof (GetTLSVersionScore_range version). lia. }
  split.
  { intros w response. rewrite score_response_max.
    pose proof (score_response_range w response). lia. }
  split; [exact GetSPFScore_range|].
  split; [exact GetDMARCScore_range | exact GetPreviousVulnerabilitiesScore_range].
Qed.

(** C3 as the specification states it does not hold: on the scheme
    [gopher] the achieved value of the protocol scorer is negative. *)
Lemma protocol_score_negative :
  ~ (0 <= fst (CalculateProtocolScore "gopher")).
Proof. cbn. lia. Qed.

(** *** Whole runs *)

(** Without TXT records the mail-server score is 0 of 5. *)
Lemma mail_score_without_records w host0 :
  (forall command, bash_Output w command = ("", None)) ->
  GetMailServerConfigurationScore w host0 = Ok (0, 5).
Proof.
  intros H. unfold GetMailServerConfigurationScore, GetSPFScore, GetDMARCScore.
  rewrite !H. reflexivity.
Qed.

Lemma scenario_header_score w response state :
  Header response = Header scenario_response ->
  Proto response = "HTTP/2.0" ->
  TLS response = Some state -> Version state = VersionTLS12 ->
  totalScore (score_response w response) = 28
  /\ maxScore (score_response w response) = 45.
Proof.
  destruct response as [H P T], state as [v]. cbn. intros -> -> -> ->.
  split; vm_compute; reflexivity.
Qed.

Lemma normalize_33_55 : normalize 33 55 = Float64.literal 6 10.
Proof. vm_compute. reflexivity. Qed.

(** C1 (amended): in the scenario (scheme https; the headers
    X-Frame-Options: DENY and Strict-Transport-Security: max-age=31536000;
    includeSubDomains and no others; HTTP/2.0 over TLS 1.2; no SPF and no
    DMARC record) the aggregation yields the achieved total 33, the maximum
    55 and the normalized score 0.6. *)
Theorem scenario_totals w url domain response state :
  url_Parse w url = inr domain -> Scheme domain = "https" ->
  IsValidURL w url = None -> http_Head w url = inr response ->
  Header response = {[ XFrameHeader := ["DENY"];
                       HSTSHeader := ["max-age=31536000; includeSubDomains"] ]} ->
  Proto response = "HTTP/2.0" ->
  TLS response = Some state -> Version state = VersionTLS12 ->
  (forall command, bash_Output w command = ("", None)) ->
  exists t, overall_totals w url = Ok t
            /\ score t = 33 /\ maximumScore t = 55
            /\ normalized t = Float64.literal 6 10.
Proof.
  intros P S V H Hh Hp Ht Hv B.
  destruct (scenario_header_score w response state Hh Hp Ht Hv) as [T M].
  unfold overall_totals, GetResponseHeaderScore. rewrite P, V, H, S.
  destruct (if Contains (Host domain) ":" then _ else _) as [h p].
  cbn [CalculateProtocolScore bind].
  rewrite (mail_score_without_records w h B). cbn [bind].
  eexists. split; [reflexivity|].
  cbn [score maximumScore normalized]. rewrite T, M.
  split; [reflexivity|]. split; [reflexivity|].
  change (normalize 33 55 = Float64.literal 6 10). exact normalize_33_55.
Qed.

Lemma scenario_totals_witness :
  exists t, overall_totals scenario scenario_url = Ok t
            /\ score t = 33 /\ maximumScore t = 55
            /\ normalized t = Float64.literal 6 10.
Proof.
  apply (scenario_totals scenario scenario_url scenario_domain scenario_response
           {| Version := VersionTLS12 |}); try reflexivity.
  intros command. unfold scenario, world. cbn [bash_Output].
  destruct (HasPrefix command "dig @8.8.8.8"); reflexivity.
Defined.

(** The totals of the scenario, by running the program. *)
Lemma scenario_run :
  match overall_totals scenario scenario_url with
  | Ok t => score t = 33 /\ maximumScore t = 55
  | _ => False
  end.
Proof. vm_compute. split; reflexivity. Qed.

(** C1 as the specification states it does not hold: in the scenario the
    totals are not 34 of 50 with the normalized score 0.68. *)
Lemma scenario_is_not_34_of_50 :
  ~ (exists t, overall_totals scenario scenario_url = Ok t
               /\ score t = 34 /\ maximumScore t = 50
               /\ normalized t = Float64.literal 68 100).
Proof.
  intros (t & E & S & _). pose proof scenario_run as R. rewrite E in R. lia.
Qed.

Lemma scenario_result_run : overall_totals scenario scenario_url = Ok scenario_result.
Proof. vm_compute. reflexivity. Qed.

(** C9: on every run that completes (the HEAD probe succeeded), with totals
    that are Go integers, the normalized score lies between 0 and 1. *)
Theorem normalized_in_unit_interval w url t :
  overall_totals w url = Ok t ->
  maximumScore t <= 2 ^ 63 - 1 ->
  0 < maximumScore t
  /\ normalized t = normalize (score t) (maximumScore t)
  /\ Float64.leb (Float64.of_int 0) (normalized t) = true
  /\ Float64.leb (normalized t) (Float64.of_int 1) = true.
Proof.
  intros H B.
  destruct (overall_totals_Ok w url t H)
    as (domain & response & ms & mm & _ & _ & _ & Hm & _ & _ & Hs & Hx & Hn).
  pose proof (CalculateProtocolScore_range (Scheme domain)).
  pose proof (score_response_range w response).
  pose proof (score_response_max w response).
  apply GetMailServerConfigurationScore_range in Hm.
  destruct (Float64_facts.normalize_bounds (score t) (maximumScore t))
    as (m & E & Hr); [lia | lia |].
  split; [lia|]. split; [exact Hn|]. rewrite Hn, E.
  rewrite (Float64_facts.of_int_exact 0), (Float64_facts.of_int_exact 1) by (cbn; lia).
  cbn [Float64.leb]. split; apply Z.leb_le; lia.
Qed.

Lemma normalized_in_unit_interval_witness :
  0 < maximumScore scenario_result
  /\ normalized scenario_result
     = normalize (score scenario_result) (maximumScore scenario_result)
  /\ Float64.leb (Float64.of_int 0) (normalized scenario_result) = true
  /\ Float64.leb (normalized scenario_result) (Float64.of_int 1) = true.
Proof.
  apply (normalized_in_unit_interval scenario scenario_url scenario_result).
  - vm_compute. reflexivity.
  - cbn. lia.
Defined.

(** C6: a failure of the TLS dial or handshake is not fatal: the
    certificate routine returns a summary with the domain name and the
    error text, every other field empty, and the score response is
    returned with that summary. *)
Theorem dial_failure_is_reported w :
  (forall hostport host0 port0 e,
     SplitHostPort w hostport = (host0, port0, None) ->
     tls_Dial w (host0 +:+ ":" +:+ port0) = inl e ->
     GetCertificate w hostport =
       Ok {| DomainName := host0; IP := ""; Issuer := ""; CommonName := "";
             SANs := []; Cert_NotBefore := ""; Cert_NotAfter := "";
             Error := e; certChain := [] |})
  /\ (forall url t e,
        overall_totals w url = Ok t ->
        tls_Dial w (host t +:+ ":" +:+ port t) = inl e ->
        CalculateOverallScore w url =
          Ok (GetScoresResponse (GetScores url (normalized t) (messages t))
                (Cert_error (host t) e) None (ServerDetail_of t))).
Proof.
  split.
  - intros hostport h p e S D. unfold GetCertificate, certificate_of, serverCert.
    rewrite S, D. reflexivity.
  - intros url t e T D. unfold CalculateOverallScore. rewrite T. cbn [bind].
    unfold GetCertificate_of, certificate_of, serverCert. rewrite D. reflexivity.
Qed.

Lemma dial_failure_is_reported_witness :
  GetCertificate scenario "example.com" =
    Ok {| DomainName := "example.com"; IP := ""; Issuer := ""; CommonName := "";
          SANs := []; Cert_NotBefore := ""; Cert_NotAfter := "";
          Error := "connection refused"; certChain := [] |}
  /\ CalculateOverallScore scenario scenario_url =
       Ok (GetScoresResponse
             (GetScores scenario_url (normalized scenario_result) (messages scenario_result))
             (Cert_error (host scenario_result) "connection refused") None
             (ServerDetail_of scenario_result)).
Proof.
  destruct (dial_failure_is_reported scenario) as [C R]. split.
  - apply (C "example.com" "example.com" "443" "connection refused"); reflexivity.
  - apply (R scenario_url scenario_result "connection refused");
      [vm_compute; reflexivity | reflexivity].
Defined.

(** *** Failing lookups *)


Lemma GetDMARCScore_fatal w domain out e :
  bash_Output w (Replace DMARCQuery "domain.com" domain) = (out, Some e) ->
  GetDMARCScore w domain =
    Fatal ("Unexpected Error Occured while extracting DMARC Records" +:+ e).
Proof. intros H. unfold GetDMARCScore. rewrite H. reflexivity. Qed.

(** A DMARC lookup that ran returns a score, whatever it printed. *)
Lemma GetDMARCScore_returns w domain out :
  bash_Output w (Replace DMARCQuery "domain.com" domain) = (out, None) ->
  exists s, GetDMARCScore w domain = Ok s.
Proof.
  intros H. unfold GetDMARCScore. rewrite H.
  destruct (Z.ltb_spec 2 (len out)) as [L|L]; [|eexists; reflexivity].
  unfold slice.
  replace ((0 <=? 1) && (1 <=? len out - 1) && (len out - 1 <=? len out)) with true
    by (symmetry; rewrite !andb_true_iff, !Z.leb_le; lia).
  cbn [bind]. destruct (HasPrefix _ _); eexists; reflexivity.
Qed.

Lemma GetPreviousVulnerabilitiesScore_fatal w host0 e :
  http_Get w (OpenBugBountyURL +:+ bare_host host0) = inl e ->
  GetPreviousVulnerabilitiesScore w host0 =
    Fatal ("Error Occured while sending Request  " +:+ e).
Proof.
  intros G. unfold GetPreviousVulnerabilitiesScore.
  fold (bare_host host0). rewrite G. reflexivity.
Qed.



(** C5: in a run whose DMARC lookup fails the code does not do what the
    claim says.  [GetDMARCScore] ends the process with [log.Fatal], so that
    the overall computation returns no result, where the claim has a zero
    contribution and a computation that completes.  On the same failure of
    its own lookup the sibling [GetSPFScore] does what the claim says: it
    prints the error, contributes 0 of 0, and the computation completes.
    The incident scorer ends the process in the same way when its feed
    cannot be fetched. *)
Theorem dmarc_failure_is_fatal :
  GetDMARCScore dmarc_down "example.com" =
    Fatal "Unexpected Error Occured while extracting DMARC Recordsexit status 9"
  /\ CalculateOverallScore dmarc_down scenario_url =
       Fatal "Unexpected Error Occured while extracting DMARC Recordsexit status 9"
  /\ ~ (exists r, CalculateOverallScore dmarc_down scenario_url = Ok r)
  /\ GetSPFScore spf_down "example.com" = Ok (0, 0)
  /\ (exists r, CalculateOverallScore spf_down scenario_url = Ok r)
  /\ GetPreviousVulnerabilitiesScore feed_down "example.com" =
       Fatal "Error Occured while sending Request  dial tcp: i/o timeout".
Proof.
  assert (E : CalculateOverallScore dmarc_down scenario_url =
              Fatal "Unexpected Error Occured while extracting DMARC Recordsexit status 9")
    by (vm_compute; reflexivity).
  split; [vm_compute; reflexivity|]. split; [exact E|].
  split; [intros [r R]; rewrite E in R; discriminate R|].
  split; [vm_compute; reflexivity|].
  split; [|vm_compute; reflexivity].
  unfold CalculateOverallScore, GetCertificate_of.
  assert (T : exists t, overall_totals spf_down scenario_url = Ok t)
    by (eexists; vm_compute; reflexivity).
  destruct T as [t ->]. cbn [bind].
  assert (C : certificate_of spf_down (host t) (port t)
              = Ok (Cert_error (host t) "connection refused")) by reflexivity.
  rewrite C. cbn [bind]. eexists. reflexivity.
Qed.

(** C8 as the specification states it does not hold: for an incident
    fixed after 720 hours to the second the remediation time is not under
    720 hours, and the incident scores 10, not 5. *)
Lemma incident_at_threshold_scores_ten :
  remediation_time threshold_world fixed_at_threshold = 720 * Time.Hour
  /\ ~ (remediation_time threshold_world fixed_at_threshold < 720 * Time.Hour)
  /\ GetPreviousVulnerabilitiesScore threshold_world "example.com" =
       Ok (10, 10, [fixed_at_threshold]).
Proof.
  split; [vm_compute; reflexivity|]. split; [vm_compute; discriminate|].
  vm_compute. reflexivity.
Qed.

(** *** The theorems at work on the example worlds *)

Lemma protocol_contribution_witness :
  CalculateProtocolScore "ftp" = (-1, "Protocol Not Found")
  /\ messages scenario_result = [snd (CalculateProtocolScore (protocol scenario_result))]
  /\ exists response mailServerScore mailMax,
       http_Head scenario scenario_url = inr response
       /\ GetMailServerConfigurationScore scenario (host scenario_result)
          = Ok (mailServerScore, mailMax)
       /\ score scenario_result
          = fst (CalculateProtocolScore (protocol scenario_result))
            + (totalScore (score_response scenario response) + mailServerScore)
       /\ maximumScore scenario_result
          = 5 + (maxScore (score_response scenario response) + mailMax).
Proof.
  destruct protocol_contribution as (_ & _ & U & A).
  split; [apply U; discriminate|].
  apply (A scenario scenario_url scenario_result). vm_compute. reflexivity.
Defined.

Lemma contributions_bounded_witness :
  fst (CalculateProtocolScore "ftp") = -1
  /\ fst (CalculateProtocolScore "http") = 0
  /\ fst (CalculateProtocolScore "https") = 5
  /\ 0 <= 8 <= 10
  /\ 0 <= 5 <= 5
  /\ 0 <= 15 <= 30.
Proof.
  destruct contributions_bounded as (P & _ & _ & S & D & I).
  destruct (P "ftp") as (_ & _ & _ & U).
  destruct (P "http") as (_ & H & _).
  destruct (P "https") as (_ & _ & T & _).
  split; [apply U; discriminate|].
  split; [apply H; reflexivity|].
  split; [apply T; reflexivity|].
  split; [apply (S spf_world "example.com"); vm_compute; reflexivity|].
  split; [apply (D dmarc_world "example.com"); vm_compute; reflexivity|].
  apply (I feed_world "www.example.com" 15 30 feed_incidents). vm_compute. reflexivity.
Defined.



Lemma spf_score_per_record_witness :
  GetSPFScore spf_world "example.com" =
    Ok (5 * count_ending "-all" spf_lines + 3 * count_ending "~all" spf_lines
          + 2 * count_ending "?all" spf_lines + 0 * count_ending "+all" spf_lines,
        5 * (count_ending "-all" spf_lines + count_ending "~all" spf_lines
               + count_ending "?all" spf_lines + count_ending "+all" spf_lines))
  /\ GetSPFScore spf_world "example.com" = Ok (8, 10).
Proof.
  split; [|vm_compute; reflexivity].
  apply (spf_score_per_record spf_world "example.com" spf_lines).
  - vm_compute. reflexivity.
  - repeat constructor; vm_compute; discriminate.
Defined.

Lemma incident_score_rule_witness :
  GetPreviousVulnerabilitiesScore feed_world "www.example.com" =
    Ok (total_points feed_world feed_incidents,
        10 * Z.of_nat (length feed_incidents), feed_incidents)
  /\ incident_points feed_world not_fixed = 0
  /\ incident_points feed_world fixed_at_threshold = 10
  /\ incident_points feed_world fixed_late = 5
  /\ total_points feed_world feed_incidents = 15.
Proof.
  destruct (incident_score_rule feed_world "www.example.com" "" feed_incidents)
    as (R & P & _); try reflexivity.
  split; [exact R|].
  split; [apply (P not_fixed); reflexivity|].
  split; [apply (P fixed_at_threshold); [reflexivity | vm_compute; discriminate]|].
  split; [apply (P fixed_late); [reflexivity | vm_compute; reflexivity]|].
  vm_compute. reflexivity.
Defined.

End scoring_facts.

(** ** More properties of the header scorer *)
Module header_facts.
Import Strings models services examples notions scoring_facts.

Lemma header_map_lookup response key :
  header_map response !! key = (fun v => Join v ",") <$> (Header response !! key).
Proof. unfold header_map. apply lookup_fmap. Qed.

Lemma header_map_set_header key values response :
  header_map (set_header key values response)
  = <[key := Join values ","]> (header_map response).
Proof.
  unfold header_map, set_header. cbn [Header].
  exact (fmap_insert (fun v : list string => Join v ",") (Header response) key values).
Qed.

Lemma TLS_points_version response response' :
  TLS_version response = TLS_version response' ->
  TLS_points response = TLS_points response'.
Proof.
  unfold TLS_version, TLS_points.
  destruct (TLS response), (TLS response'); intros [=]; congruence.
Qed.

(** The header scorer looks at the seven scored headers, the protocol and
    the TLS version, and at nothing else of the response: two responses
    that agree on these get the same total, the same maximum and the same
    report URL; the server detail depends on the Server header alone. *)
Theorem header_score_reads_seven_headers w response response' :
  ((forall key, In key scored_headers -> Header response !! key = Header response' !! key) ->
   Proto response = Proto response' ->
   TLS_version response = TLS_version response' ->
   totalScore (score_response w response) = totalScore (score_response w response')
   /\ maxScore (score_response w response) = maxScore (score_response w response')
   /\ XSSReportURL (score_response w response) = XSSReportURL (score_response w response'))
  /\ (Header response !! Server = Header response' !! Server ->
      serverInfo (score_response w response) = serverInfo (score_response w response')).
Proof.
  split.
  - intros H P T.
    assert (L : forall key, In key scored_headers ->
                  header_map response !! key = header_map response' !! key).
    { intros key K. rewrite !header_map_lookup, (H key K). reflexivity. }
    assert (X : XSS_check (header_map response) = XSS_check (header_map response')).
    { unfold XSS_check. rewrite (L XSSHeader) by (cbn; tauto). reflexivity. }
    split.
    { rewrite !score_response_total, X, P, (TLS_points_version _ _ T).
      unfold XFrame_check, HSTS_check, CSP_check, PKP_check, RP_check, XContentType_check.
      rewrite (L XFrameHeader), (L HSTSHeader), (L CSPHeader), (L PKPHeader),
        (L RPHeader), (L XContentTypeHeader) by (cbn; tauto).
      reflexivity. }
    split; [rewrite !score_response_max; reflexivity|].
    unfold score_response. fold (header_map response) (header_map response').
    rewrite X. destruct (XSS_check (header_map response')). reflexivity.
  - intros S. unfold score_response. fold (header_map response) (header_map response').
    destruct (XSS_check (header_map response)), (XSS_check (header_map response')).
    cbn [serverInfo]. rewrite !header_map_lookup, S. reflexivity.
Qed.

Lemma header_score_reads_seven_headers_witness :
  totalScore (score_response scenario scenario_response)
  = totalScore (score_response scenario
                  (set_header "Set-Cookie" ["id=1"; "lang=en"] scenario_response))
  /\ serverInfo (score_response scenario scenario_response)
     = serverInfo (score_response scenario
                     (set_header XFrameHeader ["SAMEORIGIN"] scenario_response)).
Proof.
  split.
  - apply (proj1 (header_score_reads_seven_headers scenario scenario_response
                    (set_header "Set-Cookie" ["id=1"; "lang=en"] scenario_response)));
      try reflexivity.
    intros key K. unfold set_header. cbn [Header].
    rewrite lookup_insert_ne; [reflexivity|].
    cbn in K. intuition (subst; discriminate).
  - apply (proj2 (header_score_reads_seven_headers scenario scenario_response
                    (set_header XFrameHeader ["SAMEORIGIN"] scenario_response))).
    reflexivity.
Defined.

(** A response with none of the seven scored headers earns the defaults
    0 + 1 + 2 + 3 + 3 + 2 + 0 = 11, to which the points of the HTTP version
    and of the TLS version are added. *)
Theorem score_without_scored_headers w response :
  (forall key, In key scored_headers -> Header response !! key = None) ->
  totalScore (score_response w response)
  = 11 + GetHTTPVersionScore w (Proto response) + TLS_points response.
Proof.
  intros H.
  assert (L : forall key, In key scored_headers -> header_map response !! key = None).
  { intros key K. rewrite header_map_lookup, (H key K). reflexivity. }
  rewrite score_response_total.
  unfold XSS_check, XFrame_check, HSTS_check, CSP_check, PKP_check, RP_check,
    XContentType_check.
  rewrite (L XSSHeader), (L XFrameHeader), (L HSTSHeader), (L CSPHeader),
    (L PKPHeader), (L RPHeader), (L XContentTypeHeader) by (cbn; tauto).
  cbn [fst]. lia.
Qed.

Lemma score_without_scored_headers_witness :
  totalScore (score_response scenario (set_header "Server" ["nginx"] bare_response))
  = 11 + GetHTTPVersionScore scenario "HTTP/1.1" + 0.
Proof.
  apply (score_without_scored_headers scenario (set_header "Server" ["nginx"] bare_response)).
  intros key K. unfold set_header, bare_response. cbn [Header].
  rewrite lookup_insert_ne; [apply lookup_empty|].
  cbn in K. intuition (subst; discriminate).
Defined.

(** The checks of the other headers do not see a header that is set. *)
Ltac other_headers :=
  unfold XSS_check, XFrame_check, HSTS_check, CSP_check, PKP_check, RP_check,
    XContentType_check;
  rewrite ?lookup_insert_eq;
  rewrite ?lookup_insert_ne by discriminate.

Lemma total_of_set_header w key values response :
  totalScore (score_response w (set_header key values response))
  = fst (XSS_check (<[key := Join values ","]> (header_map response)))
    + XFrame_check w (<[key := Join values ","]> (header_map response))
    + HSTS_check (<[key := Join values ","]> (header_map response))
    + CSP_check (<[key := Join values ","]> (header_map response))
    + PKP_check (<[key := Join values ","]> (header_map response))
    + RP_check w (<[key := Join values ","]> (header_map response))
    + XContentType_check w (<[key := Join values ","]> (header_map response))
    + GetHTTPVersionScore w (Proto response) + TLS_points response.
Proof.
  rewrite score_response_total, header_map_set_header. reflexivity.
Qed.

(** Content-Security-Policy and Public-Key-Pins are scored by presence
    alone: whatever its values, even none or empty ones, the header is
    worth 5 where its absence is worth 3, and the maximum stays 45. *)
Theorem presence_alone_is_scored w values response :
  (Header response !! CSPHeader = None ->
   totalScore (score_response w (set_header CSPHeader values response))
   = totalScore (score_response w response) + 2)
  /\ (Header response !! PKPHeader = None ->
      totalScore (score_response w (set_header PKPHeader values response))
      = totalScore (score_response w response) + 2)
  /\ maxScore (score_response w (set_header CSPHeader values response)) = 45
  /\ maxScore (score_response w (set_header PKPHeader values response)) = 45.
Proof.
  split; [|split; [|split; apply score_response_max]].
  - intros A. rewrite total_of_set_header, score_response_total. other_headers.
    rewrite (header_map_lookup response CSPHeader), A. cbn. lia.
  - intros A. rewrite total_of_set_header, score_response_total. other_headers.
    rewrite (header_map_lookup response PKPHeader), A. cbn. lia.
Qed.

Lemma presence_alone_is_scored_witness :
  totalScore (score_response scenario (set_header CSPHeader [] scenario_response))
  = totalScore (score_response scenario scenario_response) + 2
  /\ totalScore (score_response scenario (set_header PKPHeader [""] scenario_response))
     = totalScore (score_response scenario scenario_response) + 2.
Proof.
  split.
  - apply (presence_alone_is_scored scenario [] scenario_response). reflexivity.
  - apply (presence_alone_is_scored scenario [""] scenario_response). reflexivity.
Defined.

(** A header with a value the scorer does not recognise is worth less than
    no header: X-Frame-Options loses the 1 point of its absence, and
    Strict-Transport-Security and Referrer-Policy the 2 points of
    theirs. *)
Theorem unrecognised_value_scores_below_absence w values response :
  (Header response !! XFrameHeader = None ->
   GetXFrameScore w (Join values ",") = 0 ->
   totalScore (score_response w (set_header XFrameHeader values response))
   = totalScore (score_response w response) - 1)
  /\ (Header response !! HSTSHeader = None ->
      GetHSTSScore (Join values ",") = 0 ->
      totalScore (score_response w (set_header HSTSHeader values response))
      = totalScore (score_response w response) - 2)
  /\ (Header response !! RPHeader = None ->
      GetReferrerPolicyScore w (Join values ",") = 0 ->
      totalScore (score_response w (set_header RPHeader values response))
      = totalScore (score_response w response) - 2).
Proof.
  split; [|split].
  - intros A Z0. rewrite total_of_set_header, score_response_total. other_headers.
    rewrite (header_map_lookup response XFrameHeader), A, Z0. cbn. lia.
  - intros A Z0. rewrite total_of_set_header, score_response_total. other_headers.
    rewrite (header_map_lookup response HSTSHeader), A, Z0. cbn. lia.
  - intros A Z0. rewrite total_of_set_header, score_response_total. other_headers.
    rewrite (header_map_lookup response RPHeader), A, Z0. cbn. lia.
Qed.

Lemma unrecognised_value_scores_below_absence_witness :
  totalScore (score_response scenario (set_header XFrameHeader ["DENY"; "DENY"] bare_response))
  = totalScore (score_response scenario bare_response) - 1
  /\ totalScore (score_response scenario (set_header HSTSHeader ["Max-Age=300"] bare_response))
     = totalScore (score_response scenario bare_response) - 2
  /\ totalScore (score_response scenario (set_header RPHeader ["origin, same-origin"] bare_response))
     = totalScore (score_response scenario bare_response) - 2.
Proof.
  split; [|split].
  - apply (unrecognised_value_scores_below_absence scenario ["DENY"; "DENY"] bare_response);
      reflexivity.
  - apply (unrecognised_value_scores_below_absence scenario ["Max-Age=300"] bare_response);
      reflexivity.
  - apply (unrecognised_value_scores_below_absence scenario ["origin, same-origin"] bare_response);
      reflexivity.
Defined.

(** *** A header sent more than once *)

Lemma has_byte_app c s t : has_byte c (s +:+ t) = has_byte c s || has_byte c t.
Proof.
  induction s as [|d s IH]; [reflexivity|].
  change (String d s +:+ t) with (String d (s +:+ t)). cbn [has_byte].
  rewrite IH. apply orb_assoc.
Qed.

Lemma has_comma_lower s :
  has_byte "," (map_bytes lower_byte s) = true <-> has_byte "," s = true.
Proof.
  induction s as [|d s IH]; cbn [map_bytes has_byte]; [tauto|].
  rewrite !orb_true_iff, IH.
  assert (E : Ascii.eqb (lower_byte d) "," = Ascii.eqb d ",").
  { unfold lower_byte, is_upper, byte_of.
    destruct d as [[] [] [] [] [] [] [] []]; reflexivity. }
  rewrite E. tauto.
Qed.

(** On ASCII strings [EqualFold] compares the lower-case forms. *)
Lemma EqualFold_ascii f s : forall t,
  all_ascii s = true -> all_ascii t = true ->
  EqualFold f s t = true -> map_bytes lower_byte s = map_bytes lower_byte t.
Proof.
  induction s as [|c s IH]; intros [|d t]; cbn [EqualFold all_ascii map_bytes];
    try discriminate; [reflexivity|].
  intros A B. apply andb_true_iff in A as [A1 A2]. apply andb_true_iff in B as [B1 B2].
  rewrite A1, B1. cbn [andb]. intros E. apply andb_true_iff in E as [E1 E2].
  apply Ascii.eqb_eq in E1. rewrite E1, (IH t A2 B2 E2). reflexivity.
Qed.

Lemma Join_has_comma v1 v2 rest : has_byte "," (Join (v1 :: v2 :: rest) ",") = true.
Proof.
  cbn [Join]. rewrite !has_byte_app. cbn [has_byte].
  rewrite Ascii.eqb_refl. cbn. apply orb_true_r.
Qed.

(** X-Content-Type-Options sent in two or more header lines scores 0,
    also when every line says nosniff: the values are joined with commas
    before they are compared. *)
Theorem repeated_nosniff_scores_zero w v1 v2 rest response :
  all_ascii (Join (v1 :: v2 :: rest) ",") = true ->
  XContentType_check w
    (header_map (set_header XContentTypeHeader (v1 :: v2 :: rest) response)) = 0.
Proof.
  intros A. rewrite header_map_set_header. unfold XContentType_check.
  rewrite lookup_insert_eq. unfold GetXContentTypeScore.
  destruct (EqualFold _ _ XContentTypeHeaderValue) eqn:E; [exfalso|reflexivity].
  apply EqualFold_ascii in E; [|exact A|reflexivity].
  pose proof (Join_has_comma v1 v2 rest) as C.
  apply has_comma_lower in C. rewrite E in C. discriminate C.
Qed.

Lemma repeated_nosniff_scores_zero_witness :
  XContentType_check scenario
    (header_map (set_header XContentTypeHeader ["nosniff"; "nosniff"] bare_response)) = 0
  /\ XContentType_check scenario
       (header_map (set_header XContentTypeHeader ["nosniff"] bare_response)) = 5.
Proof.
  split; [|reflexivity].
  apply (repeated_nosniff_scores_zero scenario "nosniff" "nosniff" [] bare_response).
  reflexivity.
Defined.

(** *** Letter case *)

Lemma EqualFold_ascii_eqb f s : forall t,
  all_ascii s = true -> all_ascii t = true ->
  EqualFold f s t = String.eqb (map_bytes lower_byte s) (map_bytes lower_byte t).
Proof.
  induction s as [|c s IH]; intros [|d t]; cbn [EqualFold all_ascii map_bytes];
    try reflexivity.
  intros A B. apply andb_true_iff in A as [A1 A2]. apply andb_true_iff in B as [B1 B2].
  rewrite A1, B1. cbn [andb String.eqb]. rewrite (IH t A2 B2).
  destruct (Ascii.eqb (lower_byte c) (lower_byte d)); reflexivity.
Qed.

(** The values of X-Frame-Options, Referrer-Policy and
    X-Content-Type-Options and the HTTP version are compared without
    regard to the case of their letters: two ASCII values that differ in
    the case of letters only score the same. *)
Theorem values_are_compared_without_case w s t :
  all_ascii s = true -> all_ascii t = true ->
  map_bytes lower_byte s = map_bytes lower_byte t ->
  GetXFrameScore w s = GetXFrameScore w t
  /\ GetReferrerPolicyScore w s = GetReferrerPolicyScore w t
  /\ GetXContentTypeScore w s = GetXContentTypeScore w t
  /\ GetHTTPVersionScore w s = GetHTTPVersionScore w t.
Proof.
  intros A B E.
  unfold GetXFrameScore, GetReferrerPolicyScore, GetXContentTypeScore,
    GetHTTPVersionScore, ToLower.
  rewrite A, B, E.
  rewrite !(EqualFold_ascii_eqb _ s), !(EqualFold_ascii_eqb _ t), E
    by (assumption || reflexivity).
  repeat split; reflexivity.
Qed.

Lemma values_are_compared_without_case_witness :
  (GetXFrameScore scenario "SameOrigin" = GetXFrameScore scenario "sameorigin"
   /\ GetReferrerPolicyScore scenario "SameOrigin" = GetReferrerPolicyScore scenario "sameorigin"
   /\ GetXContentTypeScore scenario "SameOrigin" = GetXContentTypeScore scenario "sameorigin"
   /\ GetHTTPVersionScore scenario "SameOrigin" = GetHTTPVersionScore scenario "sameorigin")
  /\ GetHSTSScore "Max-Age=31536000" = 0 /\ GetHSTSScore "max-age=31536000" = 4.
Proof.
  split; [|split; reflexivity].
  apply (values_are_compared_without_case scenario "SameOrigin" "sameorigin"); reflexivity.
Defined.

End header_facts.

(** ** More properties of the mail scorers *)
Module mail_facts.
Import Strings models services examples notions scoring_facts.

(** The loop of [GetSPFScore] panics on a line of fewer than two bytes. *)
Lemma scan_records_short_line lines : forall totalScore spfRecordCount,
  Exists (fun line => len line < 2) lines ->
  scan_records lines totalScore spfRecordCount = Panic.
Proof.
  induction lines as [|line lines IH]; intros t c E; [inversion E|].
  cbn [scan_records].
  destruct (Z.lt_ge_cases (len line) 2) as [S|L].
  - unfold slice.
    replace ((0 <=? 1) && (1 <=? len line - 1) && (len line - 1 <=? len line)) with false;
      [reflexivity|].
    symmetry. apply andb_false_iff. left. apply andb_false_iff. right.
    apply Z.leb_gt. lia.
  - rewrite slice_quotes by exact L. cbn [bind].
    assert (E' : Exists (fun l => len l < 2) lines) by (inversion E; [lia | assumption]).
    repeat match goal with
           | |- context [if ?b then _ else _] => destruct b
           end; apply IH; exact E'.
Qed.

Lemma short_or_quoted lines :
  Exists (fun line => len line < 2) lines \/ Forall (fun line => 2 <= len line) lines.
Proof.
  induction lines as [|line lines [E|F]].
  - right. constructor.
  - left. apply Exists_cons_tl. exact E.
  - destruct (Z.lt_ge_cases (len line) 2) as [S|L].
    + left. apply Exists_cons_hd. exact S.
    + right. constructor; assumption.
Qed.

Lemma GetSPFScore_lines w domain :
  GetSPFScore w domain =
    let! (totalScore, spfRecordCount) := scan_records (txt_lines w domain) 0 0 in
    Ok (totalScore, spfRecordCount * 5).
Proof.
  unfold GetSPFScore, txt_lines.
  destruct (bash_Output w (Replace TXTQuery "domain.com" domain)) as [out err].
  reflexivity.
Qed.

(** A line of fewer than two bytes in what [dig] printed, a blank line for
    one, makes [GetSPFScore] panic, and with it the mail scorer and the
    overall computation up to the normalized score. *)
Theorem spf_panics_on_short_line w host0 :
  Exists (fun line => len line < 2) (txt_lines w (bare_host host0)) ->
  GetSPFScore w (bare_host host0) = Panic
  /\ GetMailServerConfigurationScore w host0 = Panic.
Proof.
  intros E.
  assert (S : GetSPFScore w (bare_host host0) = Panic).
  { rewrite GetSPFScore_lines, (scan_records_short_line _ 0 0 E). reflexivity. }
  split; [exact S|].
  unfold GetMailServerConfigurationScore. fold (bare_host host0).
  rewrite S. reflexivity.
Qed.

Lemma spf_panics_on_short_line_witness :
  Exists (fun line => len line < 2) (txt_lines blank_line_world (bare_host "example.com"))
  /\ GetSPFScore blank_line_world (bare_host "example.com") = Panic
  /\ GetMailServerConfigurationScore blank_line_world "example.com" = Panic.
Proof.
  assert (E : Exists (fun line => len line < 2)
                (txt_lines blank_line_world (bare_host "example.com"))).
  { apply Exists_cons_tl, Exists_cons_hd. vm_compute. reflexivity. }
  split; [exact E|].
  exact (spf_panics_on_short_line blank_line_world "example.com" E).
Defined.

(** The order in which [dig] prints the TXT records has no part in the SPF
    score, nor in whether the scorer panics. *)
Theorem spf_score_ignores_order w w' domain domain' :
  Permutation (txt_lines w domain) (txt_lines w' domain') ->
  GetSPFScore w domain = GetSPFScore w' domain'.
Proof.
  intros P. rewrite !GetSPFScore_lines.
  set (lines := txt_lines w domain) in *. set (lines' := txt_lines w' domain') in *.
  clearbody lines lines'.
  assert (C : forall suffix, count_ending suffix lines = count_ending suffix lines').
  { intros suffix. unfold count_ending. f_equal.
    apply Permutation_length.
    induction P; cbn [List.filter];
      repeat match goal with
             | |- context [if ?b then _ else _] => destruct b
             end;
      eauto using Permutation. }
  destruct (short_or_quoted lines) as [E|F].
  - rewrite (scan_records_short_line lines 0 0 E).
    rewrite (scan_records_short_line lines' 0 0); [reflexivity|].
    apply Stdlib.Lists.List.Exists_exists in E as (l & I & S).
    apply Stdlib.Lists.List.Exists_exists.
    exists l. split; [|exact S].
    apply (Permutation_in _ P). exact I.
  - rewrite (scan_records_quoted lines 0 0 F).
    rewrite (scan_records_quoted lines' 0 0).
    + rewrite !C. reflexivity.
    + apply Stdlib.Lists.List.Forall_forall. intros l I.
      rewrite Stdlib.Lists.List.Forall_forall in F. apply F.
      apply (Permutation_in _ (Permutation_sym P)). exact I.
Qed.

Lemma spf_score_ignores_order_witness :
  Permutation (txt_lines spf_world "example.com") (txt_lines spf_world_reversed "example.com")
  /\ GetSPFScore spf_world "example.com" = GetSPFScore spf_world_reversed "example.com"
  /\ GetSPFScore spf_world "example.com" = Ok (8, 10).
Proof.
  assert (P : Permutation (txt_lines spf_world "example.com")
                (txt_lines spf_world_reversed "example.com")).
  { change (txt_lines spf_world "example.com") with spf_lines.
    change (txt_lines spf_world_reversed "example.com") with (rev spf_lines).
    apply Permutation_rev. }
  split; [exact P|]. split; [|reflexivity].
  exact (spf_score_ignores_order spf_world spf_world_reversed "example.com" "example.com" P).
Defined.

(** [GetDMARCScore] does not panic, whatever [dig] printed: when the
    command failed the process ends, and when it ran the score is 0 or
    5; the length check before the slice is what [GetSPFScore] lacks. *)
Theorem dmarc_score_never_panics w domain :
  match snd (bash_Output w (Replace DMARCQuery "domain.com" domain)) with
  | Some e =>
      GetDMARCScore w domain =
        Fatal ("Unexpected Error Occured while extracting DMARC Records" +:+ e)
  | None =>
      (GetDMARCScore w domain = Ok 0 \/ GetDMARCScore w domain = Ok 5)
      /\ (len (fst (bash_Output w (Replace DMARCQuery "domain.com" domain))) <= 2 ->
          GetDMARCScore w domain = Ok 0)
  end.
Proof.
  unfold GetDMARCScore.
  destruct (bash_Output w (Replace DMARCQuery "domain.com" domain)) as [out [e|]];
    cbn [fst snd]; [reflexivity|].
  destruct (Z.ltb_spec 2 (len out)) as [L|L].
  - unfold slice.
    replace ((0 <=? 1) && (1 <=? len out - 1) && (len out - 1 <=? len out)) with true
      by (symmetry; rewrite !andb_true_iff, !Z.leb_le; lia).
    cbn [bind]. split; [|lia].
    destruct (HasPrefix _ _); [right|left]; reflexivity.
  - split; [left|]; reflexivity.
Qed.

(** *** The host name of the lookups *)

Lemma Replace_from_skip x u old new :
  Replace_from (String.length x) (x +:+ u) old new = Replace_from 0 u old new.
Proof.
  induction x as [|c x IH]; [reflexivity|].
  change (String c x +:+ u) with (String c (x +:+ u)).
  cbn [Replace_from String.length]. exact IH.
Qed.

Lemma Replace_none u old new :
  occurrences u old = 0%nat -> Replace_from 0 u old new = u.
Proof.
  induction u as [|c u IH]; intros H; [reflexivity|].
  cbn [occurrences] in H. cbn [Replace_from].
  destruct (HasPrefix (String c u) old); [lia|].
  rewrite IH by lia. reflexivity.
Qed.

Lemma bare_host_www rest :
  occurrences rest "www." = 0%nat ->
  bare_host ("www." +:+ rest) = rest /\ bare_host rest = rest.
Proof.
  intros H. unfold bare_host. split.
  - rewrite (HasPrefix_app "www." rest). unfold Replace.
    change ("www." +:+ rest) with (String "w" ("ww." +:+ rest)).
    cbn [Replace_from]. pose proof (HasPrefix_app "www." rest) as P.
    change ("www." +:+ rest) with (String "w" ("ww." +:+ rest)) in P.
    rewrite P. change (String.length "www." - 1)%nat with (String.length "ww.").
    rewrite Replace_from_skip, Replace_none by exact H. reflexivity.
  - destruct rest as [|c rest]; [reflexivity|].
    cbn [occurrences] in H.
    destruct (HasPrefix (String c rest) "www."); [lia | reflexivity].
Qed.

(** A host name with the prefix www. is scored as the name without it:
    the mail scorer and the incident scorer give the results they give for
    the rest of the name (in which www. does not occur again). *)
Theorem www_prefix_is_dropped w rest :
  occurrences rest "www." = 0%nat ->
  GetMailServerConfigurationScore w ("www." +:+ rest)
    = GetMailServerConfigurationScore w rest
  /\ GetPreviousVulnerabilitiesScore w ("www." +:+ rest)
       = GetPreviousVulnerabilitiesScore w rest.
Proof.
  intros H. destruct (bare_host_www rest H) as [A B].
  unfold GetMailServerConfigurationScore, GetPreviousVulnerabilitiesScore.
  fold (bare_host ("www." +:+ rest)). fold (bare_host rest).
  rewrite A, B. split; reflexivity.
Qed.

Lemma www_prefix_is_dropped_witness :
  GetMailServerConfigurationScore spf_world "www.example.com"
    = GetMailServerConfigurationScore spf_world "example.com"
  /\ GetPreviousVulnerabilitiesScore feed_world "www.example.com"
       = GetPreviousVulnerabilitiesScore feed_world "example.com".
Proof.
  split.
  - apply (www_prefix_is_dropped spf_world "example.com"). reflexivity.
  - apply (www_prefix_is_dropped feed_world "example.com"). reflexivity.
Defined.

(** *** The commands *)

Lemma TXTQuery_for domain : Replace TXTQuery "domain.com" domain = txt_command domain.
Proof. reflexivity. Qed.

Lemma append_empty s : s +:+ EmptyString = s.
Proof.
  induction s as [|c s IH]; [reflexivity|].
  change (String c s +:+ EmptyString) with (String c (s +:+ EmptyString)).
  rewrite IH. reflexivity.
Qed.

Lemma DMARCQuery_for domain : Replace DMARCQuery "domain.com" domain = dmarc_command domain.
Proof.
  change (Replace DMARCQuery "domain.com" domain)
    with ("dig +short TXT _dmarc." +:+ (domain +:+ EmptyString)).
  rewrite append_empty. reflexivity.
Qed.

(** The mail scorer consults the outside world through two shell commands
    and nothing else: the two [dig] commands with the host name, without
    its www., put in as it is, neither quoted nor escaped. *)
Theorem mail_score_runs_two_commands w w' host0 :
  bash_Output w (txt_command (bare_host host0))
    = bash_Output w' (txt_command (bare_host host0)) ->
  bash_Output w (dmarc_command (bare_host host0))
    = bash_Output w' (dmarc_command (bare_host host0)) ->
  GetMailServerConfigurationScore w host0 = GetMailServerConfigurationScore w' host0.
Proof.
  intros T D. unfold GetMailServerConfigurationScore, GetSPFScore, GetDMARCScore.
  fold (bare_host host0). rewrite !TXTQuery_for, !DMARCQuery_for, T, D. reflexivity.
Qed.

Lemma mail_score_runs_two_commands_witness :
  GetMailServerConfigurationScore scenario "example.com"
    = GetMailServerConfigurationScore no_such_host "example.com".
Proof.
  apply (mail_score_runs_two_commands scenario no_such_host "example.com"); reflexivity.
Defined.

End mail_facts.

(** ** More properties of the incident scorer *)
Module incident_facts.
Import Strings models services examples notions scoring_facts.

(** A date of the feed that does not parse counts as the zero time, and
    the incident is scored all the same: a fixed incident whose fixed date
    does not parse scores 10, when its reported date is not before the zero
    time, and one whose reported date does not parse scores 5, when its
    fixed date is more than 720 hours after the zero time. *)
Theorem unparsable_dates_are_scored w incident :
  Fixed incident = true ->
  (forall e, time_Parse w feed_layout (FixedDate incident) = inl e ->
             0 <= parse_date w (ReportedDate incident) ->
             incident_score w incident = 10)
  /\ (forall e, time_Parse w feed_layout (ReportedDate incident) = inl e ->
                720 * Time.Hour < parse_date w (FixedDate incident) ->
                incident_score w incident = 5).
Proof.
  intros F. rewrite incident_score_points. unfold incident_points, remediation_time.
  rewrite F. split; intros e P H.
  - unfold parse_date at 1. fold feed_layout. rewrite P.
    unfold Time.Sub, Time.zero, Time.minDuration, Time.maxDuration, Time.Hour in *.
    destruct (Z.ltb_spec (0 - parse_date w (ReportedDate incident)) (- 2 ^ 63));
      [reflexivity|].
    destruct (Z.ltb_spec (2 ^ 63 - 1) (0 - parse_date w (ReportedDate incident))); [lia|].
    destruct (Z.leb_spec (0 - parse_date w (ReportedDate incident))
                (720 * (60 * 60 * 1000000000))); [reflexivity | lia].
  - unfold parse_date at 2. fold feed_layout. rewrite P.
    unfold Time.Sub, Time.zero, Time.minDuration, Time.maxDuration, Time.Hour in *.
    rewrite Z.sub_0_r.
    destruct (Z.ltb_spec (parse_date w (FixedDate incident)) (- 2 ^ 63)); [lia|].
    destruct (Z.ltb_spec (2 ^ 63 - 1) (parse_date w (FixedDate incident)));
      [reflexivity|].
    destruct (Z.leb_spec (parse_date w (FixedDate incident))
                (720 * (60 * 60 * 1000000000))); [lia | reflexivity].
Qed.

Lemma unparsable_dates_are_scored_witness :
  incident_score feed_world fixed_without_date = 10
  /\ incident_score feed_world reported_without_date = 5.
Proof.
  split.
  - apply (proj1 (unparsable_dates_are_scored feed_world fixed_without_date eq_refl)
             "cannot parse"); [reflexivity | vm_compute; discriminate].
  - apply (proj2 (unparsable_dates_are_scored feed_world reported_without_date eq_refl)
             "cannot parse"); [reflexivity | vm_compute; reflexivity].
Defined.

End incident_facts.

(** ** More properties of [getServerInformation] and [GetCertificate] *)
Module lookup_facts.
Import Strings models services examples notions scoring_facts.

Lemma first_match_app server before entry after :
  Forall (fun e => HasPrefix server (Prefix e) = false) before ->
  HasPrefix server (Prefix entry) = true ->
  first_match server (before ++ entry :: after) = WebServer_ServerDetail entry.
Proof.
  intros N M. induction before as [|e before IH]; cbn [first_match app].
  - rewrite M. reflexivity.
  - inversion N as [|? ? Ne N']; subst. rewrite Ne. apply IH. exact N'.
Qed.

Lemma first_match_none server values :
  Forall (fun e => HasPrefix server (Prefix e) = false) values ->
  first_match server values = None.
Proof.
  induction 1 as [|e values Ne N IH]; cbn [first_match]; [reflexivity|].
  rewrite Ne. exact IH.
Qed.

(** [getServerInformation] answers with the detail of the first entry of
    the catalogue whose prefix starts the Server header, letters compared
    as they are; what the later entries say is not looked at, also when
    that first entry has no detail.  Without a matching entry there is no
    detail. *)
Theorem server_information_is_first_match w server :
  (forall before entry after,
     web_servers w = (before ++ entry :: after)%list ->
     Forall (fun e => HasPrefix server (Prefix e) = false) before ->
     HasPrefix server (Prefix entry) = true ->
     getServerInformation w server = WebServer_ServerDetail entry)
  /\ (Forall (fun e => HasPrefix server (Prefix e) = false) (web_servers w) ->
      getServerInformation w server = None).
Proof.
  unfold getServerInformation. split.
  - intros before entry after -> N M. apply first_match_app; assumption.
  - apply first_match_none.
Qed.

Lemma server_information_is_first_match_witness :
  getServerInformation catalogue_world "nginx/1.18.0" = None
  /\ getServerInformation catalogue_world "apache" = None.
Proof.
  split.
  - apply (proj1 (server_information_is_first_match catalogue_world "nginx/1.18.0")
             [] {| Prefix := "nginx"; WebServer_ServerDetail := None |}
             (List.tl catalogue)); [reflexivity | constructor | reflexivity].
  - apply (proj2 (server_information_is_first_match catalogue_world "apache")).
    repeat constructor.
Defined.

(** A certificate summary of [GetCertificate] either reports a failure,
    and then carries the host name and the error text and nothing else, or
    describes the first certificate of the chain the server presented,
    with no error text. *)
Theorem certificate_summary_shape w hostport c :
  GetCertificate w hostport = Ok c ->
  (certChain c = [] /\ c = Cert_error (DomainName c) (Error c))
  \/ (exists leaf rest,
        certChain c = leaf :: rest /\ Error c = ""
        /\ Issuer c = Issuer_CommonName leaf
        /\ CommonName c = Subject_CommonName leaf
        /\ SANs c = DNSNames leaf).
Proof.
  unfold GetCertificate, SplitHostPort, certificate_of, serverCert.
  destruct (negb (Contains hostport ":")).
  - destruct (tls_Dial w _) as [e|conn].
    + intros [= <-]. left. split; reflexivity.
    + destruct (PeerCertificates conn) as [|leaf rest]; [discriminate|].
      intros [= <-]. right. exists leaf, rest. repeat split; reflexivity.
  - destruct (net_SplitHostPort w hostport) as [e|[h p]].
    + intros [= <-]. left. split; reflexivity.
    + destruct (tls_Dial w _) as [e|conn].
      * intros [= <-]. left. split; reflexivity.
      * destruct (PeerCertificates conn) as [|leaf rest]; [discriminate|].
        intros [= <-]. right. exists leaf, rest. repeat split; reflexivity.
Qed.

Lemma certificate_summary_shape_witness :
  (certChain (Cert_error "example.com" "connection refused") = []
   /\ Cert_error "example.com" "connection refused"
      = Cert_error (DomainName (Cert_error "example.com" "connection refused"))
          (Error (Cert_error "example.com" "connection refused")))
  \/ (exists leaf rest,
        certChain (Cert_error "example.com" "connection refused") = leaf :: rest
        /\ Error (Cert_error "example.com" "connection refused") = ""
        /\ Issuer (Cert_error "example.com" "connection refused") = Issuer_CommonName leaf
        /\ CommonName (Cert_error "example.com" "connection refused")
           = Subject_CommonName leaf
        /\ SANs (Cert_error "example.com" "connection refused") = DNSNames leaf).
Proof.
  apply (certificate_summary_shape scenario "example.com"). reflexivity.
Defined.

(** [SplitHostPort] never answers with an empty port: without a colon, or
    with nothing after it, the port is 443; and [GetCertificate] dials the
    host and the port it answers with. *)
Theorem split_port_is_never_empty w hostport host0 port0 :
  SplitHostPort w hostport = (host0, port0, None) ->
  port0 <> ""
  /\ (Contains hostport ":" = false -> host0 = hostport /\ port0 = "443")
  /\ (forall h, Contains hostport ":" = true ->
                net_SplitHostPort w hostport = inr (h, "") ->
                host0 = h /\ port0 = "443")
  /\ (forall h p, Contains hostport ":" = true -> p <> "" ->
                  net_SplitHostPort w hostport = inr (h, p) ->
                  host0 = h /\ port0 = p)
  /\ GetCertificate w hostport = certificate_of w host0 port0.
Proof.
  intros S. unfold GetCertificate. rewrite S. revert S. unfold SplitHostPort.
  destruct (Contains hostport ":"); cbn [negb].
  - destruct (net_SplitHostPort w hostport) as [e|[h p]]; [discriminate|].
    destruct (String.eqb p "") eqn:E; intros [= <- <-].
    + apply String.eqb_eq in E. subst p.
      split; [discriminate|]. split; [discriminate|].
      split; [intros h' _ Q; injection Q; intros; subst; split; reflexivity|].
      split; [intros h' p' _ N Q; injection Q; intros; subst; congruence | reflexivity].
    + apply String.eqb_neq in E.
      split; [exact E|]. split; [discriminate|].
      split; [intros h' _ Q; injection Q; intros; subst; congruence|].
      split; [intros h' p' _ N Q; injection Q; intros; subst; split; reflexivity|].
      reflexivity.
  - intros [= <- <-]. split; [discriminate|].
    split; [intros _; split; reflexivity|].
    split; [discriminate|]. split; [discriminate | reflexivity].
Qed.

Lemma split_port_is_never_empty_witness :
  "443" <> ""
  /\ (Contains "example.com" ":" = false -> "example.com" = "example.com" /\ "443" = "443")
  /\ (forall h, Contains "example.com" ":" = true ->
                net_SplitHostPort scenario "example.com" = inr (h, "") ->
                "example.com" = h /\ "443" = "443")
  /\ (forall h p, Contains "example.com" ":" = true -> p <> "" ->
                  net_SplitHostPort scenario "example.com" = inr (h, p) ->
                  "example.com" = h /\ "443" = p)
  /\ GetCertificate scenario "example.com" = certificate_of scenario "example.com" "443".
Proof.
  apply (split_port_is_never_empty scenario "example.com" "example.com" "443").
  reflexivity.
Defined.

End lookup_facts.

(** ** More properties of the normalized score *)
Module normalize_facts.
Import Strings models services examples notions Float64 Float64_facts scoring_facts.

(** The steps of [normalize], with the whole number [math.Ceil] delivers. *)
Lemma normalize_steps a b :
  0 <= a <= b -> 0 < b <= 2 ^ 63 ->
  exists q p c,
    q = round_pos (round_pos (a * one) 1 * one) (round_pos (b * one) 1)
    /\ p = round_pos (q * (100 * one)) one
    /\ c = - (- p / one)
    /\ 0 <= q <= one /\ 0 <= p <= 100 * one /\ 0 <= c <= 100
    /\ normalize a b = div (of_int c) (of_int 100)
    /\ normalize a b = FFin (round_pos (c * one * one) (100 * one)).
Proof.
  intros Ha Hb. pose proof one_pos as P.
  destruct (of_int_nonneg a ltac:(lia)) as [Ea Ba].
  destruct (of_int_nonneg b ltac:(lia)) as [Eb Bb].
  assert (Ma : 0 <= round_pos (a * one) 1) by (apply round_pos_nonneg; nia).
  assert (Mab : round_pos (a * one) 1 <= round_pos (b * one) 1)
    by (apply round_pos_mono; nia).
  assert (Mb : one <= round_pos (b * one) 1)
    by (apply round_pos_ge; [nia | lia | apply on_grid_one | nia]).
  unfold normalize. rewrite Ea, Eb.
  destruct (div_bounded (round_pos (a * one) 1) (round_pos (b * one) 1) 1)
    as [-> Hq]; [lia | lia | lia | rewrite Z.mul_1_l; apply on_grid_one | lia |].
  rewrite (of_int_exact 100) by (cbn; lia).
  destruct (mul_bounded (round_pos (round_pos (a * one) 1 * one) (round_pos (b * one) 1)) 100)
    as [-> Hp]; [lia | lia |].
  destruct (Ceil_bounded _ 100 Hp) as (c & Ec & Hc).
  assert (Ec' : c = - (- round_pos
                         (round_pos (round_pos (a * one) 1 * one) (round_pos (b * one) 1)
                          * (100 * one)) one / one)).
  { unfold Ceil in Ec. injection Ec as Ec. nia. }
  rewrite Ec.
  destruct (div_bounded (c * one) (100 * one) 1) as [Er Hr];
    [nia | lia | lia | rewrite Z.mul_1_l; apply on_grid_one | nia |].
  eexists _, _, c. split; [reflexivity|]. split; [reflexivity|].
  split; [exact Ec'|]. split; [lia|]. split; [lia|]. split; [lia|].
  rewrite (of_int_exact c) by (cbn; lia). split; [reflexivity | exact Er].
Qed.

(** The normalized score is a whole number of hundredths, as the program
    computes them: [float64(k) / 100] for a whole [k] from 0 to 100, at
    least 1 as soon as the score is positive, and 100 when the score is the
    maximum. *)
Theorem normalized_is_hundredths a b :
  0 <= a <= b -> 0 < b <= 2 ^ 63 ->
  exists k, 0 <= k <= 100 /\ (0 < a -> 1 <= k) /\ (a = b -> k = 100)
            /\ normalize a b = Float64.div (Float64.of_int k) (Float64.of_int 100).
Proof.
  intros Ha Hb. pose proof one_pos as P.
  destruct (normalize_steps a b Ha Hb) as (q & p & c & Eq & Ep & Ec & Hq & Hp & Hc & E & _).
  assert (Mb : one <= round_pos (b * one) 1)
    by (apply round_pos_ge; [nia | lia | apply on_grid_one | nia]).
  assert (Bb : round_pos (b * one) 1 <= 2 ^ 63 * one)
    by (apply round_pos_le; [nia | lia | apply on_grid_pow2_scaled | nia]).
  exists c. split; [exact Hc|]. split; [|split; [|exact E]].
  - intros Pa.
    assert (Ma : one <= round_pos (a * one) 1)
      by (apply round_pos_ge; [nia | lia | apply on_grid_one | nia]).
    assert (T : 2 ^ 1011 * (2 ^ 63 * one) = one * one).
    { unfold one. rewrite <- !Z.pow_add_r by lia. reflexivity. }
    assert (Y : 0 < 2 ^ 1011) by (apply Z.pow_pos_nonneg; lia).
    assert (Lq : 2 ^ 1011 <= q).
    { rewrite Eq. apply round_pos_ge; [nia | lia | apply on_grid_pow2; lia |].
      transitivity (2 ^ 1011 * (2 ^ 63 * one)); [|rewrite T]; nia. }
    assert (Lp : 2 ^ 1011 <= p).
    { rewrite Ep. apply round_pos_ge; [nia | lia | apply on_grid_pow2; lia | nia]. }
    assert (- p / one < 0) by (apply Z.div_lt_upper_bound; lia).
    lia.
  - intros <-.
    assert (Ma : 0 < round_pos (a * one) 1) by lia.
    assert (Q : q = one).
    { apply Z.le_antisymm; [lia|].
      rewrite Eq. apply round_pos_ge; [nia | lia | apply on_grid_one | nia]. }
    assert (Q' : p = 100 * one).
    { apply Z.le_antisymm; [lia|].
      rewrite Ep, Q. apply round_pos_ge; [nia | lia | apply on_grid_int; lia | nia]. }
    rewrite Ec, Q'. replace (- (100 * one)) with ((-100) * one) by lia.
    rewrite Z.div_mul by lia. reflexivity.
Qed.

Lemma normalized_is_hundredths_witness :
  exists k, 0 <= k <= 100 /\ (0 < 33 -> 1 <= k) /\ (33 = 55 -> k = 100)
            /\ normalize 33 55 = Float64.div (Float64.of_int k) (Float64.of_int 100).
Proof. apply (normalized_is_hundredths 33 55); lia. Defined.

(** A higher score out of the same maximum never gives a lower normalized
    score, and the same score out of a higher maximum never gives a higher
    one. *)
Theorem normalized_is_monotone a1 b1 a2 b2 :
  0 <= a1 <= a2 -> a2 <= b2 <= b1 -> 0 < b2 -> b1 <= 2 ^ 63 ->
  Float64.leb (normalize a1 b1) (normalize a2 b2) = true.
Proof.
  intros Ha Hb Pb Bb. pose proof one_pos as P.
  destruct (normalize_steps a1 b1 ltac:(lia) ltac:(lia))
    as (q1 & p1 & c1 & Eq1 & Ep1 & Ec1 & Hq1 & Hp1 & Hc1 & _ & ->).
  destruct (normalize_steps a2 b2 ltac:(lia) ltac:(lia))
    as (q2 & p2 & c2 & Eq2 & Ep2 & Ec2 & Hq2 & Hp2 & Hc2 & _ & ->).
  assert (Na1 : 0 <= round_pos (a1 * one) 1) by (apply round_pos_nonneg; nia).
  assert (Na : round_pos (a1 * one) 1 <= round_pos (a2 * one) 1)
    by (apply round_pos_mono; nia).
  assert (Nb2 : one <= round_pos (b2 * one) 1)
    by (apply round_pos_ge; [nia | lia | apply on_grid_one | nia]).
  assert (Nb : round_pos (b2 * one) 1 <= round_pos (b1 * one) 1)
    by (apply round_pos_mono; nia).
  assert (Q : q1 <= q2).
  { rewrite Eq1, Eq2. apply round_pos_mono; try nia.
    apply Z.mul_le_mono_nonneg; nia. }
  assert (Q' : p1 <= p2).
  { rewrite Ep1, Ep2. apply round_pos_mono; nia. }
  assert (C : c1 <= c2).
  { rewrite Ec1, Ec2.
    assert (- p2 / one <= - p1 / one) by (apply Z.div_le_mono; lia). lia. }
  cbn [Float64.leb]. apply Z.leb_le.
  assert (OO : 0 < one * one) by nia.
  clear - C Hc1 Hc2 P OO.
  apply round_pos_mono; [nia | lia | nia | lia |].
  apply Z.mul_le_mono_nonneg_r; [lia|].
  rewrite <- !Z.mul_assoc. apply Z.mul_le_mono_nonneg_r; lia.
Qed.

Lemma normalized_is_monotone_witness :
  Float64.leb (normalize 33 55) (normalize 34 50) = true.
Proof. apply (normalized_is_monotone 33 55 34 50); lia. Defined.

End normalize_facts.

(** ** More properties of the overall computation and of the handler *)
Module overall_facts.
Import Strings models services controllers examples notions scoring_facts.

Lemma scan_records_no_error lines : forall totalScore spfRecordCount e,
  scan_records lines totalScore spfRecordCount <> Err e.
Proof.
  induction lines as [|line lines IH]; intros t c e; cbn [scan_records]; [discriminate|].
  unfold slice. destruct (_ && _); cbn [bind]; [|discriminate].
  repeat match goal with
         | |- context [if ?b then _ else _] => destruct b
         end; apply IH.
Qed.

Lemma mail_score_no_error w host0 e : GetMailServerConfigurationScore w host0 <> Err e.
Proof.
  unfold GetMailServerConfigurationScore.
  set (domain := if HasPrefix host0 "www." then _ else _).
  unfold GetSPFScore.
  destruct (bash_Output w (Replace TXTQuery "domain.com" domain)) as [out err].
  pose proof (scan_records_no_error (Bufio.ScanLines out) 0 0 e) as S.
  destruct (scan_records (Bufio.ScanLines out) 0 0) as [[s n]| | |]; cbn [bind];
    try discriminate; [|congruence].
  destruct (bash_Output w (Replace DMARCQuery "domain.com" domain)) as [out' [err'|]] eqn:D.
  - rewrite (GetDMARCScore_fatal w domain out' err' D). discriminate.
  - destruct (GetDMARCScore_returns w domain out' D) as [d ->]. discriminate.
Qed.

Lemma head_error_is_returned w url domain e :
  url_Parse w url = inr domain -> IsValidURL w url = None ->
  http_Head w url = inl e -> overall_totals w url = Err e.
Proof.
  intros P V H. unfold overall_totals, GetResponseHeaderScore. rewrite P, V, H.
  destruct (if Contains (Host domain) ":" then _ else _) as [h p].
  destruct (CalculateProtocolScore (Scheme domain)) as [ps pm]. reflexivity.
Qed.

(** The errors the overall computation returns, up to the normalized
    score, are those of [url.Parse], of [utils.IsValidURL] and of the HEAD
    request, in this order, and no others: the mail lookups never make it
    return an error. *)
Theorem returned_errors w url e :
  overall_totals w url = Err e <->
  url_Parse w url = inl e
  \/ (exists domain,
        url_Parse w url = inr domain
        /\ (IsValidURL w url = Some e
            \/ (IsValidURL w url = None /\ http_Head w url = inl e))).
Proof.
  unfold overall_totals, GetResponseHeaderScore.
  destruct (url_Parse w url) as [err|domain].
  { split; [intros [= ->]; left; reflexivity|].
    intros [H|(d & Hd & _)]; congruence. }
  destruct (if Contains (Host domain) ":" then _ else _) as [h p].
  destruct (CalculateProtocolScore (Scheme domain)) as [ps pm].
  destruct (IsValidURL w url) as [err|].
  { cbn [bind]. split; [intros [= ->]; right; exists domain; auto|].
    intros [H|(d & _ & [H|[H _]])]; congruence. }
  destruct (http_Head w url) as [err|response].
  { cbn [bind]. split; [intros [= ->]; right; exists domain; auto|].
    intros [H|(d & _ & [H|[_ H]])]; congruence. }
  cbn [bind]. pose proof (mail_score_no_error w h e) as M.
  destruct (GetMailServerConfigurationScore w h) as [[ms mm]| | |]; cbn [bind];
    (split; [try discriminate; congruence|]);
    intros [H|(d & _ & [H|[_ H]])]; congruence.
Qed.

(** The host and the port of the lookups: the port is never empty, it is
    the default port of the scheme when the URL names none (443 for https,
    80 for any other scheme); a host part with a colon that cannot be
    split gives the empty host name, the error of the split being
    dropped. *)
Theorem host_and_port_of_lookups w url domain t :
  url_Parse w url = inr domain ->
  overall_totals w url = Ok t ->
  port t <> ""
  /\ (Contains (Host domain) ":" = false ->
      host t = Host domain
      /\ port t = (if String.eqb (Scheme domain) "https" then "443" else "80"))
  /\ (forall e,
        Contains (Host domain) ":" = true ->
        net_SplitHostPort w (Host domain) = inl e ->
        host t = ""
        /\ port t = (if String.eqb (Scheme domain) "https" then "443" else "80")).
Proof.
  intros P. unfold overall_totals, GetResponseHeaderScore. rewrite P.
  destruct (if Contains (Host domain) ":" then _ else _) as [h p] eqn:S.
  destruct (CalculateProtocolScore (Scheme domain)) as [ps pm].
  destruct (IsValidURL w url) as [err|]; [discriminate|].
  destruct (http_Head w url) as [err|response]; [discriminate|].
  cbn [bind].
  destruct (GetMailServerConfigurationScore w h) as [[ms mm]| | |]; cbn [bind];
    try discriminate.
  intros [= <-]. cbn [port host]. unfold getDefaultPort.
  split; [|split].
  - destruct (String.eqb p "") eqn:E.
    + destruct (String.eqb (Scheme domain) "https"); discriminate.
    + apply String.eqb_neq in E. exact E.
  - intros C. rewrite C in S. injection S as <- <-. split; reflexivity.
  - intros e C N. rewrite C, N in S. injection S as <- <-. split; reflexivity.
Qed.

Lemma host_and_port_of_lookups_witness :
  port scenario_result <> ""
  /\ (Contains (Host scenario_domain) ":" = false ->
      host scenario_result = Host scenario_domain
      /\ port scenario_result
         = (if String.eqb (Scheme scenario_domain) "https" then "443" else "80"))
  /\ (forall e,
        Contains (Host scenario_domain) ":" = true ->
        net_SplitHostPort scenario (Host scenario_domain) = inl e ->
        host scenario_result = ""
        /\ port scenario_result
           = (if String.eqb (Scheme scenario_domain) "https" then "443" else "80")).
Proof.
  apply (host_and_port_of_lookups scenario scenario_url scenario_domain scenario_result).
  - reflexivity.
  - exact scenario_result_run.
Defined.

(** The handler of POST /scores answers a request it accepted (valid
    token, body decoded, URL valid) whose HEAD request failed with 400
    Invalid Domain when the error text contains no such host, and with 500
    otherwise; and it answers 200 only when the HEAD request was
    answered. *)
Theorem probe_errors_reach_the_client w r :
  (forall URL domain e,
     ValidateToken r = true -> Decode r = inr URL ->
     IsValidURL w URL = None -> url_Parse w URL = inr domain ->
     http_Head w URL = inl e ->
     GetScore w r =
       Ok (if Contains e "no such host" then BadRequest "Invalid Domain"
           else InternalServerError "Unexpected Error Occured"))
  /\ (forall response,
        GetScore w r = Ok (StatusOK response) ->
        exists URL answer,
          ValidateToken r = true /\ Decode r = inr URL
          /\ IsValidURL w URL = None /\ http_Head w URL = inr answer).
Proof.
  split.
  - intros URL domain e T D V P H.
    pose proof (head_error_is_returned w URL domain e P V H) as E.
    unfold GetScore, CalculateOverallScore. rewrite T, D, V, E. cbn [negb bind].
    destruct (Contains e "no such host"); reflexivity.
  - intros response. unfold GetScore.
    destruct (ValidateToken r); cbn [negb]; [|discriminate].
    destruct (Decode r) as [err|URL]; [discriminate|].
    destruct (IsValidURL w URL) as [err|] eqn:V; [discriminate|].
    destruct (CalculateOverallScore w URL) as [resp|err| |] eqn:C; try discriminate.
    + intros _. unfold CalculateOverallScore in C.
      destruct (overall_totals w URL) as [t| | |] eqn:O; cbn [bind] in C; try discriminate.
      apply overall_totals_Ok in O as (domain & answer & _ & _ & _ & _ & H & _).
      exists URL, answer. auto.
    + destruct (Contains err "no such host"); discriminate.
Qed.

Lemma probe_errors_reach_the_client_witness :
  GetScore no_such_host scenario_request = Ok (BadRequest "Invalid Domain")
  /\ GetScore no_answer scenario_request
     = Ok (InternalServerError "Unexpected Error Occured").
Proof.
  split.
  - apply (proj1 (probe_errors_reach_the_client no_such_host scenario_request)
             scenario_url scenario_domain
             "Head https://example.com: dial tcp: lookup example.com: no such host");
      reflexivity.
  - apply (proj1 (probe_errors_reach_the_client no_answer scenario_request)
             scenario_url scenario_domain
             "Head https://example.com: context deadline exceeded");
      reflexivity.
Defined.

End overall_facts.
